(** * realip: the client address resolver of [realip.go]

    A shallow embedding of [isPrivateAddress] and [FromRequest] together with
    the parts of the Go standard library they call ([strings], [unicode/utf8],
    [net/netip], [net] and the header map of [net/http]), followed by the
    properties of the resolver.

    Go strings are byte sequences: they are modelled by [string], whose
    characters are the 256 byte values.  Bytes and runes are integers in [Z];
    lengths and indexes are natural numbers.  A nil slice or pointer is
    [None]. *)

From Stdlib Require Import ZArith Lia Ascii.
From stdpp Require Import strings gmap list.

(** ** Bytes of a string *)

(** [s[i]] as an integer between 0 and 255. *)
Definition code (c : ascii) : Z := Z.of_N (N_of_ascii c).

(** [s[i]] for an index that the caller has checked to be in range. *)
Definition byte_at (s : string) (i : nat) : Z :=
  match String.get i s with Some c => code c | None => 0%Z end.

(** [s[i:]] *)
Fixpoint slice_from (i : nat) (s : string) : string :=
  match i, s with
  | O, _ => s
  | S i', String _ s' => slice_from i' s'
  | S _, EmptyString => EmptyString
  end.

(** [s[:j]] *)
Fixpoint slice_to (j : nat) (s : string) : string :=
  match j, s with
  | O, _ => EmptyString
  | S j', String c s' => String c (slice_to j' s')
  | S _, EmptyString => EmptyString
  end.

(** [s[i:j]] *)
Definition slice (i j : nat) (s : string) : string :=
  slice_to (j - i) (slice_from i s).

(** [bytealg.IndexByteString]: the index of the first [c] in [s]. *)
Fixpoint IndexByteString (s : string) (c : ascii) : option nat :=
  match s with
  | EmptyString => None
  | String d s' =>
      if Ascii.eqb d c then Some O else S <$> IndexByteString s' c
  end.

(** [bytealg.LastIndexByteString]: the index of the last [c] in [s]. *)
Fixpoint LastIndexByteString (s : string) (c : ascii) : option nat :=
  match s with
  | EmptyString => None
  | String d s' =>
      match LastIndexByteString s' c with
      | Some i => Some (S i)
      | None => if Ascii.eqb d c then Some O else None
      end
  end.

(** The double quote character, byte 34. *)
Definition dquote : ascii := "034"%char.

(** ** Package [unicode/utf8] and [unicode.IsSpace] *)
Module utf8.
Local Open Scope Z_scope.

Definition RuneSelf : Z := 128.
Definition RuneError : Z := 65533.
Definition UTFMax : Z := 4.

(** [RuneStart]: [b&0xC0 != 0x80]. *)
Definition RuneStart (b : Z) : bool := negb (Z.land b 192 =? 128).

(** The table [first] joined with [acceptRanges]: for a leading byte of a
    multi-byte sequence, the length of the sequence and the range allowed
    for its second byte; [None] for the bytes marked [xx]. *)
Definition first (b : Z) : option (nat * Z * Z) :=
  if (194 <=? b) && (b <=? 223) then Some (2%nat, 128, 191)
  else if b =? 224 then Some (3%nat, 160, 191)
  else if (225 <=? b) && (b <=? 236) then Some (3%nat, 128, 191)
  else if b =? 237 then Some (3%nat, 128, 159)
  else if (238 <=? b) && (b <=? 239) then Some (3%nat, 128, 191)
  else if b =? 240 then Some (4%nat, 144, 191)
  else if (241 <=? b) && (b <=? 243) then Some (4%nat, 128, 191)
  else if b =? 244 then Some (4%nat, 128, 143)
  else None.

(** A continuation byte lies between [locb] and [hicb]. *)
Definition continuation (b : Z) : bool := (128 <=? b) && (b <=? 191).

Definition DecodeRuneInString (s : string) : Z * nat :=
  let n := String.length s in
  if (n <? 1)%nat then (RuneError, 0%nat)
  else
    let s0 := byte_at s 0 in
    if s0 <? RuneSelf then (s0, 1%nat)
    else
      match first s0 with
      | None => (RuneError, 1%nat)
      | Some (sz, lo, hi) =>
          if (n <? sz)%nat then (RuneError, 1%nat)
          else
            let s1 := byte_at s 1 in
            if (s1 <? lo) || (hi <? s1) then (RuneError, 1%nat)
            else if (sz <=? 2)%nat then
              (Z.lor (Z.shiftl (Z.land s0 31) 6) (Z.land s1 63), 2%nat)
            else
              let s2 := byte_at s 2 in
              if negb (continuation s2) then (RuneError, 1%nat)
              else if (sz <=? 3)%nat then
                (Z.lor (Z.shiftl (Z.land s0 15) 12)
                   (Z.lor (Z.shiftl (Z.land s1 63) 6) (Z.land s2 63)), 3%nat)
              else
                let s3 := byte_at s 3 in
                if negb (continuation s3) then (RuneError, 1%nat)
                else
                  (Z.lor (Z.shiftl (Z.land s0 7) 18)
                     (Z.lor (Z.shiftl (Z.land s1 63) 12)
                        (Z.lor (Z.shiftl (Z.land s2 63) 6) (Z.land s3 63))),
                   4%nat)
      end.

(** The backwards search of [DecodeLastRuneInString] for a byte that can
    start a rune: [for start--; start >= lim; start--]. *)
Fixpoint back_scan (fuel : nat) (s : string) (start lim : Z) : Z :=
  match fuel with
  | O => start
  | S fuel' =>
      if start <? lim then start
      else if RuneStart (byte_at s (Z.to_nat start)) then start
      else back_scan fuel' s (start - 1) lim
  end.

Definition DecodeLastRuneInString (s : string) : Z * nat :=
  let end_ := Z.of_nat (String.length s) in
  if end_ =? 0 then (RuneError, 0%nat)
  else
    let start := end_ - 1 in
    let r := byte_at s (Z.to_nat start) in
    if r <? RuneSelf then (r, 1%nat)
    else
      let lim := Z.max 0 (end_ - UTFMax) in
      let start := back_scan 4 s (start - 1) lim in
      let start := Z.max 0 start in
      let '(r, size) :=
        DecodeRuneInString (slice (Z.to_nat start) (Z.to_nat end_) s) in
      if negb (start + Z.of_nat size =? end_) then (RuneError, 1%nat)
      else (r, size).

(** [unicode.IsSpace]: the Latin-1 spaces and the [White_Space] table. *)
Definition IsSpace (r : Z) : bool :=
  if r <=? 255 then
    (r =? 9) || (r =? 10) || (r =? 11) || (r =? 12) || (r =? 13)
    || (r =? 32) || (r =? 133) || (r =? 160)
  else
    (r =? 5760) || ((8192 <=? r) && (r <=? 8202)) || (r =? 8232)
    || (r =? 8233) || (r =? 8239) || (r =? 8287) || (r =? 12288).
End utf8.

(** ** Package [strings] *)
Module strings.

(** [strings.Split(s, sep)] for a separator of one byte, which is what
    every call in [realip.go] passes: the pieces of [s] between the
    occurrences of [sep], the empty ones included. *)
Fixpoint Split (s : string) (sep : ascii) : list string :=
  match s with
  | EmptyString => [EmptyString]
  | String c s' =>
      if Ascii.eqb c sep then EmptyString :: Split s' sep
      else
        match Split s' sep with
        | x :: xs => String c x :: xs
        | [] => [String c EmptyString]
        end
  end.

(** [strings.Contains(s, substr)]: [substr] occurs in [s]. *)
Fixpoint Contains (s substr : string) : bool :=
  String.prefix substr s
  || match s with
     | EmptyString => false
     | String _ s' => Contains s' substr
     end.

(** [strings.ContainsRune(s, r)] for a rune below [utf8.RuneSelf], where
    [IndexRune] is [IndexByte]. *)
Definition ContainsRune (s : string) (r : ascii) : bool :=
  bool_decide (is_Some (IndexByteString s r)).

(** Membership of a byte in a cutset of ASCII bytes ([asciiSet.contains]). *)
Fixpoint in_cutset (c : ascii) (cutset : string) : bool :=
  match cutset with
  | EmptyString => false
  | String d cutset' => Ascii.eqb c d || in_cutset c cutset'
  end.

(** [strings.TrimLeft(s, cutset)] for a cutset of ASCII bytes
    ([trimLeftByte], [trimLeftASCII]): every leading byte of [s] that is in
    the cutset is removed. *)
Fixpoint TrimLeft (s cutset : string) : string :=
  match s with
  | EmptyString => EmptyString
  | String c s' => if in_cutset c cutset then TrimLeft s' cutset else s
  end.

(** [strings.TrimRight(s, cutset)] for a cutset of ASCII bytes: every
    trailing byte of [s] that is in the cutset is removed. *)
Fixpoint TrimRight (s cutset : string) : string :=
  match s with
  | EmptyString => EmptyString
  | String c s' =>
      match TrimRight s' cutset with
      | EmptyString => if in_cutset c cutset then EmptyString
                       else String c EmptyString
      | t => String c t
      end
  end.

(** [indexFunc(s, f, truth)]: the index of the first rune [r] of [s] with
    [f(r) == truth].  A [range] over a string decodes one rune at a time,
    an invalid byte being [utf8.RuneError] of width 1.  [s] is the part of
    the string from index [i] on; each step consumes at least one byte, so
    [fuel] is the number of bytes left. *)
Fixpoint indexFunc_from (fuel : nat) (s : string) (i : nat)
    (f : Z → bool) (truth : bool) : option nat :=
  match fuel with
  | O => None
  | S fuel' =>
      if (String.length s =? 0)%nat then None
      else
        let '(r, size) := utf8.DecodeRuneInString s in
        if Bool.eqb (f r) truth then Some i
        else indexFunc_from fuel' (slice_from size s) (i + size) f truth
  end.

Definition indexFunc (s : string) (f : Z → bool) (truth : bool) : option nat :=
  indexFunc_from (String.length s) s 0 f truth.

(** [lastIndexFunc(s, f, truth)]: [for i := len(s); i > 0; ] with
    [i -= size] for the last rune of [s[0:i]]. *)
Fixpoint lastIndexFunc_from (fuel : nat) (s : string) (i : nat)
    (f : Z → bool) (truth : bool) : option nat :=
  match fuel with
  | O => None
  | S fuel' =>
      if (i =? 0)%nat then None
      else
        let '(r, size) := utf8.DecodeLastRuneInString (slice 0 i s) in
        let i := (i - size)%nat in
        if Bool.eqb (f r) truth then Some i
        else lastIndexFunc_from fuel' s i f truth
  end.

Definition lastIndexFunc (s : string) (f : Z → bool) (truth : bool)
    : option nat :=
  lastIndexFunc_from (String.length s) s (String.length s) f truth.

Definition TrimLeftFunc (s : string) (f : Z → bool) : string :=
  match indexFunc s f false with
  | None => EmptyString
  | Some i => slice_from i s
  end.

Definition TrimRightFunc (s : string) (f : Z → bool) : string :=
  match lastIndexFunc s f false with
  | Some i =>
      if (utf8.RuneSelf <=? byte_at s i)%Z then
        let '(_, wid) := utf8.DecodeRuneInString (slice_from i s) in
        slice 0 (i + wid) s
      else slice 0 (S i) s
  | None => slice 0 0 s
  end.

Definition TrimFunc (s : string) (f : Z → bool) : string :=
  TrimRightFunc (TrimLeftFunc s f) f.

(** The table [asciiSpace]. *)
Definition asciiSpace (c : Z) : bool :=
  ((c =? 9) || (c =? 10) || (c =? 11) || (c =? 12) || (c =? 13)
   || (c =? 32))%Z.

(** The second loop of [TrimSpace], run on the reversed bytes of
    [s[start:]]: the ASCII spaces at the end are dropped; at a byte that
    is not ASCII the rest is handed to [TrimRightFunc]. *)
Fixpoint TrimSpace_stop (rs : string) : string :=
  match rs with
  | EmptyString => EmptyString
  | String c rs' =>
      if (utf8.RuneSelf <=? code c)%Z then
        TrimRightFunc (String.rev rs) utf8.IsSpace
      else if asciiSpace (code c) then TrimSpace_stop rs'
      else String.rev rs
  end.

(** [strings.TrimSpace(s)]: the first loop drops the ASCII spaces at the
    start; at a byte that is not ASCII the rest is handed to [TrimFunc]. *)
Fixpoint TrimSpace (s : string) : string :=
  match s with
  | EmptyString => EmptyString
  | String c s' =>
      if (utf8.RuneSelf <=? code c)%Z then TrimFunc s utf8.IsSpace
      else if asciiSpace (code c) then TrimSpace s'
      else TrimSpace_stop (String.rev s)
  end.
End strings.

(** ** Errors *)

(** The error values that the code can meet: [errors.New], [net.ParseError]
    and [net.AddrError]. *)
Inductive error : Type :=
  | errorString (msg : string)
  | ParseError (typ text : string)
  | AddrError (err addr : string).

Module errors.
Definition New (text : string) : error := errorString text.
End errors.

(** ** Package [net/http]: header keys and the header map *)
Module http.

(** [validHeaderFieldByte]: the token characters of RFC 7230. *)
Definition validHeaderFieldByte (c : Z) : bool :=
  ((48 <=? c) && (c <=? 57) || (65 <=? c) && (c <=? 90)
   || (97 <=? c) && (c <=? 122)
   || (c =? 33) || (c =? 35) || (c =? 36) || (c =? 37) || (c =? 38)
   || (c =? 39) || (c =? 42) || (c =? 43) || (c =? 45) || (c =? 46)
   || (c =? 94) || (c =? 95) || (c =? 96) || (c =? 124) || (c =? 126))%Z.

Fixpoint all_valid (s : string) : bool :=
  match s with
  | EmptyString => true
  | String c s' => validHeaderFieldByte (code c) && all_valid s'
  end.

Definition byte (v : Z) : ascii := ascii_of_N (Z.to_N (v mod 256)).

(** The second loop of [canonicalMIMEHeaderKey]: upper case for the first
    letter and for a letter after a dash, lower case elsewhere. *)
Fixpoint canonicalize (upper : bool) (a : string) : string :=
  match a with
  | EmptyString => EmptyString
  | String c0 a' =>
      let c := code c0 in
      let c := (if upper && (97 <=? c) && (c <=? 122) then c - 32
                else if negb upper && (65 <=? c) && (c <=? 90) then c + 32
                else c)%Z in
      String (byte c) (canonicalize (c =? 45)%Z a')
  end.

(** [http.CanonicalHeaderKey]: a key that holds a byte that is not a token
    character (a space included) is returned unchanged. *)
Definition CanonicalHeaderKey (s : string) : string :=
  if all_valid s then canonicalize true s else s.

(** [http.Header], a [map[string][]string] ([textproto.MIMEHeader]). *)
Abbreviation MIMEHeader := (gmap string (list string)).

(** [Header.Get]: the first value of the canonical form of [key], or the
    empty string. *)
Definition Get (h : MIMEHeader) (key : string) : string :=
  match h !! CanonicalHeaderKey key with
  | Some (v :: _) => v
  | _ => EmptyString
  end.

(** [h[key]]: the values stored under [key] as it is written; a missing
    key gives the nil slice, of length 0. *)
Definition index (h : MIMEHeader) (key : string) : list string :=
  default [] (h !! key).

(** [http.Request], reduced to the fields that [FromRequest] reads. *)
Record Request : Type := {
  RemoteAddr : string;
  Header : MIMEHeader
}.
End http.

(** ** Package [net/netip]: [ParseAddr]

    The parser is the one of Go 1.22, where [net.ParseIP] and
    [net.ParseCIDR] call [netip.ParseAddr]: an octet with a leading zero is
    refused, and so is an address with a zone. *)
Module netip.
Local Open Scope Z_scope.

(** The field [z] of [netip.Addr]: the address family and the zone. *)
Inductive zone : Type := z4 | z6noz | z6 (name : string).

(** [netip.Addr]: the 128 bits of the address, written as 16 bytes (an IPv4
    address is stored in its IPv4-mapped form), and the family. *)
Record Addr : Type := { addr : list Z; z : zone }.

Definition uint8 (v : Z) : Z := v mod 256.
Definition uint32 (v : Z) : Z := v mod 4294967296.

Definition v4InV6Prefix : list Z := [0; 0; 0; 0; 0; 0; 0; 0; 0; 0; 255; 255].

Definition AddrFrom4 (fields : list Z) : Addr :=
  {| addr := v4InV6Prefix ++ fields; z := z4 |}.

Definition AddrFrom16 (ip : list Z) : Addr := {| addr := ip; z := z6noz |}.

Definition IPv6Unspecified : Addr := {| addr := replicate 16 0; z := z6noz |}.

(** [Addr.WithZone]: only an IPv6 address takes a zone; the empty zone is no
    zone. *)
Definition WithZone (ip : Addr) (name : string) : Addr :=
  match z ip with
  | z4 => ip
  | _ => if String.eqb name "" then {| addr := addr ip; z := z6noz |}
         else {| addr := addr ip; z := z6 name |}
  end.

Definition Zone (ip : Addr) : string :=
  match z ip with z6 name => name | _ => EmptyString end.

Definition BitLen (ip : Addr) : Z :=
  match z ip with z4 => 32 | _ => 128 end.

Definition As16 (ip : Addr) : list Z := addr ip.

(** The loop of [parseIPv4] over the bytes [s[i]]; [rest] is [s[i:]].  The
    result is the array [fields] with the values [val] and [pos] at the end
    of the string, [None] when the loop returns an error. *)
Fixpoint parseIPv4_loop (s rest : string) (i : nat) (fields : list Z)
    (val : Z) (pos : nat) (digLen : nat) : option (list Z * Z * nat) :=
  match rest with
  | EmptyString => Some (fields, val, pos)
  | String c rest' =>
      let si := code c in
      if (48 <=? si) && (si <=? 57) then
        if (digLen =? 1)%nat && (val =? 0) then None
        else
          let val := val * 10 + si - 48 in
          let digLen := S digLen in
          if 255 <? val then None
          else parseIPv4_loop s rest' (S i) fields val pos digLen
      else if si =? 46 then
        if (i =? 0)%nat || (i =? String.length s - 1)%nat
           || (byte_at s (i - 1) =? 46) then None
        else if (pos =? 3)%nat then None
        else
          parseIPv4_loop s rest' (S i) (<[pos := uint8 val]> fields) 0
            (S pos) 0
      else None
  end.

(** [parseIPv4]: the four fields of a dotted decimal address. *)
Definition parseIPv4_fields (s : string) : option (list Z) :=
  match parseIPv4_loop s s 0 [0; 0; 0; 0] 0 0 0 with
  | None => None
  | Some (fields, val, pos) =>
      if (pos <? 3)%nat then None
      else Some (<[3%nat := uint8 val]> fields)
  end.

Definition parseIPv4 (s : string) : option Addr :=
  AddrFrom4 <$> parseIPv4_fields s.

(** The inner loop of [parseIPv6] over the hexadecimal digits of a group:
    [Some (off, acc)] when the loop ends at the end of the string or breaks
    at a byte that is no digit, [None] when it returns an error. *)
Fixpoint hex_group (s : string) (off : nat) (acc : Z) : option (nat * Z) :=
  match s with
  | EmptyString => Some (off, acc)
  | String c0 s' =>
      let c := code c0 in
      let digit :=
        if (48 <=? c) && (c <=? 57) then Some (c - 48)
        else if (97 <=? c) && (c <=? 102) then Some (c - 97 + 10)
        else if (65 <=? c) && (c <=? 70) then Some (c - 65 + 10)
        else None in
      match digit with
      | None => Some (off, acc)
      | Some d =>
          let acc := uint32 (Z.shiftl acc 4 + d) in
          if (3 <? off)%nat then None
          else if 65535 <? acc then None
          else hex_group s' (S off) acc
      end
  end.

(** [for j := i - 1; j >= ellipsis; j-- { ip[j+n] = ip[j] }], for the [k]
    values of [j] that are left. *)
Fixpoint expand (k : nat) (j n : nat) (ip : list Z) : list Z :=
  match k with
  | O => ip
  | S k' => expand k' (j - 1) n (<[(j + n)%nat := default 0 (ip !! j)]> ip)
  end.

(** [clear(ip[lo : lo+n])] *)
Fixpoint clear (n : nat) (lo : nat) (ip : list Z) : list Z :=
  match n with
  | O => ip
  | S n' => clear n' (S lo) (<[lo := 0]> ip)
  end.

(** The end of [parseIPv6], after the loop: the whole string must have been
    used, and the ellipsis, if any, is expanded. *)
Definition parseIPv6_finish (s : string) (ip : list Z) (i : nat)
    (ellipsis : option nat) : option (list Z) :=
  if negb (String.length s =? 0)%nat then None
  else if (i <? 16)%nat then
    match ellipsis with
    | None => None
    | Some e =>
        let n := (16 - i)%nat in
        Some (clear n e (expand (i - e) (i - 1) n ip))
    end
  else
    match ellipsis with
    | Some _ => None
    | None => Some ip
    end.

(** The loop [for i < 16] of [parseIPv6].  Every round adds 2 to [i] or
    leaves the loop, so 8 rounds of [fuel] reach [i = 16]. *)
Fixpoint parseIPv6_loop (fuel : nat) (s : string) (ip : list Z) (i : nat)
    (ellipsis : option nat) : option (list Z) :=
  match fuel with
  | O => parseIPv6_finish s ip i ellipsis
  | S fuel' =>
      if negb (i <? 16)%nat then parseIPv6_finish s ip i ellipsis
      else
        match hex_group s 0 0 with
        | None => None
        | Some (off, acc) =>
            if (off =? 0)%nat then None
            else if (off <? String.length s)%nat && (byte_at s off =? 46) then
              if bool_decide (ellipsis = None) && negb (i =? 12)%nat then None
              else if (16 <? i + 4)%nat then None
              else
                match parseIPv4_fields s with
                | None => None
                | Some ip4 =>
                    let ip := <[i := default 0 (ip4 !! 0%nat)]> ip in
                    let ip := <[(i + 1)%nat := default 0 (ip4 !! 1%nat)]> ip in
                    let ip := <[(i + 2)%nat := default 0 (ip4 !! 2%nat)]> ip in
                    let ip := <[(i + 3)%nat := default 0 (ip4 !! 3%nat)]> ip in
                    parseIPv6_finish EmptyString ip (i + 4) ellipsis
                end
            else
              let ip := <[i := uint8 (Z.shiftr acc 8)]> ip in
              let ip := <[(i + 1)%nat := uint8 acc]> ip in
              let i := (i + 2)%nat in
              let s := slice_from off s in
              if (String.length s =? 0)%nat then
                parseIPv6_finish s ip i ellipsis
              else if negb (byte_at s 0 =? 58) then None
              else if (String.length s =? 1)%nat then None
              else
                let s := slice_from 1 s in
                if byte_at s 0 =? 58 then
                  match ellipsis with
                  | Some _ => None
                  | None =>
                      let ellipsis := Some i in
                      let s := slice_from 1 s in
                      if (String.length s =? 0)%nat then
                        parseIPv6_finish s ip i ellipsis
                      else parseIPv6_loop fuel' s ip i ellipsis
                  end
                else parseIPv6_loop fuel' s ip i ellipsis
        end
  end.

(** [parseIPv6]: the zone is split off at the first percent sign, a leading
    ellipsis is taken, then the groups are read. *)
Definition parseIPv6 (in_ : string) : option Addr :=
  let split :=
    match IndexByteString in_ "%" with
    | Some i =>
        let name := slice_from (S i) in_ in
        if String.eqb name "" then None else Some (slice_to i in_, name)
    | None => Some (in_, EmptyString)
    end in
  match split with
  | None => None
  | Some (s, name) =>
      let ip := replicate 16 0 in
      if (2 <=? String.length s)%nat && (byte_at s 0 =? 58)
         && (byte_at s 1 =? 58) then
        let s := slice_from 2 s in
        if (String.length s =? 0)%nat then Some (WithZone IPv6Unspecified name)
        else
          (λ ip, WithZone (AddrFrom16 ip) name)
            <$> parseIPv6_loop 8 s ip 0 (Some 0%nat)
      else
        (λ ip, WithZone (AddrFrom16 ip) name) <$> parseIPv6_loop 8 s ip 0 None
  end.

(** The scan of [ParseAddr] for the first of [.], [:] and [%]. *)
Fixpoint ParseAddr_scan (s rest : string) : option Addr :=
  match rest with
  | EmptyString => None
  | String c rest' =>
      if code c =? 46 then parseIPv4 s
      else if code c =? 58 then parseIPv6 s
      else if code c =? 37 then None
      else ParseAddr_scan s rest'
  end.

Definition ParseAddr (s : string) : option Addr := ParseAddr_scan s s.
End netip.

(** ** Package [net]: addresses, networks, [SplitHostPort] *)
Module net.
Local Open Scope Z_scope.

(** [net.IP] and [net.IPMask] are byte slices. *)
Abbreviation IP := (list Z).
Abbreviation IPMask := (list Z).

Definition IPv4len : nat := 4.
Definition IPv6len : nat := 16.

(** [net.IPNet]: the fields [IP] and [Mask]. *)
Record IPNet : Type := { IPNet_IP : IP; IPNet_Mask : IPMask }.

Definition isZeros (p : list Z) : bool := forallb (λ b, b =? 0) p.
Definition allFF (p : list Z) : bool := forallb (λ b, b =? 255) p.

(** [bytealg.Equal] *)
Definition bytes_Equal (a b : list Z) : bool := bool_decide (a = b).

(** [IP.To4]: the 4-byte form of an IPv4 address, [None] (nil) otherwise. *)
Definition To4 (ip : IP) : option IP :=
  if (length ip =? IPv4len)%nat then Some ip
  else if (length ip =? IPv6len)%nat && isZeros (take 10 ip)
          && (default 0 (ip !! 10%nat) =? 255)
          && (default 0 (ip !! 11%nat) =? 255)
  then Some (drop 12 ip)
  else None.

(** [ParseIP]: [netip.ParseAddr], an address with a zone being refused. *)
Definition ParseIP (s : string) : option IP :=
  match netip.ParseAddr s with
  | Some ip => if String.eqb (netip.Zone ip) "" then Some (netip.As16 ip)
               else None
  | None => None
  end.

(** The loop of [CIDRMask] over the [l] bytes of the mask. *)
Fixpoint CIDRMask_loop (l : nat) (n : Z) : IPMask :=
  match l with
  | O => []
  | S l' =>
      if 8 <=? n then 255 :: CIDRMask_loop l' (n - 8)
      else (255 - Z.shiftr 255 n) :: CIDRMask_loop l' 0
  end.

Definition CIDRMask (ones bits : Z) : option IPMask :=
  if negb (bits =? 32) && negb (bits =? 128) then None
  else if (ones <? 0) || (bits <? ones) then None
  else Some (CIDRMask_loop (Z.to_nat (bits / 8)) ones).

(** [IP.Mask] *)
Definition IP_Mask (ip : IP) (mask : IPMask) : option IP :=
  let mask :=
    if (length mask =? IPv6len)%nat && (length ip =? IPv4len)%nat
       && allFF (take 12 mask)
    then drop 12 mask else mask in
  let ip :=
    if (length mask =? IPv4len)%nat && (length ip =? IPv6len)%nat
       && bytes_Equal (take 12 ip) netip.v4InV6Prefix
    then drop 12 ip else ip in
  if negb (length ip =? length mask)%nat then None
  else Some (zip_with Z.land ip mask).

(** [dtoi]: the decimal number at the start of [s], the number of bytes it
    takes, and whether there is one below [big]. *)
Definition big : Z := 16777215.

Fixpoint dtoi_loop (s : string) (n : Z) (i : nat) : Z * nat * bool :=
  match s with
  | EmptyString => (n, i, true)
  | String c s' =>
      if (48 <=? code c) && (code c <=? 57) then
        let n := n * 10 + (code c - 48) in
        if big <=? n then (big, i, false) else dtoi_loop s' n (S i)
      else (n, i, true)
  end.

Definition dtoi (s : string) : Z * nat * bool :=
  match dtoi_loop s 0 0 with
  | (n, i, false) => (n, i, false)
  | (n, i, true) => if (i =? 0)%nat then (0, 0%nat, false) else (n, i, true)
  end.

(** [ParseCIDR]: the address, the network, and the error.  A nil mask or
    a nil masked address is the empty slice. *)
Definition ParseCIDR (s : string) : option IP * option IPNet * option error :=
  let err := (None, None, Some (ParseError "CIDR address" s)) in
  match IndexByteString s "/" with
  | None => err
  | Some i =>
      let addr := slice_to i s in
      let mask := slice_from (S i) s in
      match netip.ParseAddr addr with
      | None => err
      | Some ipAddr =>
          if negb (String.eqb (netip.Zone ipAddr) "") then err
          else
            let '(n, j, ok) := dtoi mask in
            if negb ok || negb (j =? String.length mask)%nat || (n <? 0)
               || (netip.BitLen ipAddr <? n) then err
            else
              let m := default [] (CIDRMask n (netip.BitLen ipAddr)) in
              let addr16 := netip.As16 ipAddr in
              (Some addr16,
               Some {| IPNet_IP := default [] (IP_Mask addr16 m);
                       IPNet_Mask := m |},
               None)
      end
  end.

(** [networkNumberAndMask]: [None] stands for the result [nil, nil]. *)
Definition networkNumberAndMask (n : IPNet) : option (IP * IPMask) :=
  let ip :=
    match To4 (IPNet_IP n) with
    | Some ip => Some ip
    | None => if (length (IPNet_IP n) =? IPv6len)%nat then Some (IPNet_IP n)
              else None
    end in
  match ip with
  | None => None
  | Some ip =>
      let m := IPNet_Mask n in
      if (length m =? IPv4len)%nat then
        if negb (length ip =? IPv4len)%nat then None else Some (ip, m)
      else if (length m =? IPv6len)%nat then
        if (length ip =? IPv4len)%nat then Some (ip, drop 12 m)
        else Some (ip, m)
      else None
  end.

(** The loop of [IPNet.Contains]: [nn[i]&m[i] != ip[i]&m[i]] at no index. *)
Fixpoint masked_eq (nn m ip : list Z) : bool :=
  match nn, m, ip with
  | a :: nn', k :: m', b :: ip' =>
      if negb (Z.land a k =? Z.land b k) then false else masked_eq nn' m' ip'
  | _, _, _ => true
  end.

(** [IPNet.Contains] *)
Definition Contains (n : IPNet) (ip : IP) : bool :=
  let '(nn, m) := default ([], []) (networkNumberAndMask n) in
  let ip := match To4 ip with Some x => x | None => ip end in
  if negb (length ip =? length nn)%nat then false
  else masked_eq nn m ip.

(** [SplitHostPort]: host, port and error; the host and the port are empty
    when there is an error. *)
Definition SplitHostPort (hostport : string)
    : string * string * option error :=
  let missingPort := "missing port in address" in
  let tooManyColons := "too many colons in address" in
  let addrErr (addr why : string) : string * string * option error :=
    (EmptyString, EmptyString, Some (AddrError why addr)) in
  match LastIndexByteString hostport ":" with
  | None => addrErr hostport missingPort
  | Some i =>
      let bracketed :=
        if byte_at hostport 0 =? 91 then
          match IndexByteString hostport "]" with
          | None => inl (addrErr hostport "missing ']' in address")
          | Some end_ =>
              if (end_ + 1 =? String.length hostport)%nat then
                inl (addrErr hostport missingPort)
              else if (end_ + 1 =? i)%nat then
                inr (slice 1 end_ hostport, 1%nat, (end_ + 1)%nat)
              else if byte_at hostport (end_ + 1) =? 58 then
                inl (addrErr hostport tooManyColons)
              else inl (addrErr hostport missingPort)
          end
        else
          let host := slice_to i hostport in
          if bool_decide (is_Some (IndexByteString host ":")) then
            inl (addrErr hostport tooManyColons)
          else inr (host, 0%nat, 0%nat) in
      match bracketed with
      | inl e => e
      | inr (host, j, k) =>
          if bool_decide (is_Some (IndexByteString (slice_from j hostport) "["))
          then addrErr hostport "unexpected '[' in address"
          else if
            bool_decide (is_Some (IndexByteString (slice_from k hostport) "]"))
          then addrErr hostport "unexpected ']' in address"
          else (host, slice_from (S i) hostport, None)
      end
  end.
End net.

(** ** The program state

    The package variable [cidrs] is assigned by [init] and read by
    [isPrivateAddress]; a request is reached through a pointer.  The state
    holds both: the slice [cidrs], whose entries are pointers to networks
    (nil is [None]), and the requests that are allocated.  A computation
    takes a state and either returns a value with the state it leaves, or
    panics (a nil pointer dereference). *)

Definition loc : Type := positive.

Record World : Type := {
  cidrs : list (option net.IPNet);
  requests : gmap loc http.Request
}.

Inductive outcome (A : Type) : Type :=
  | Returns (a : A) (w : World)
  | Panics.
Arguments Returns {A} a w.
Arguments Panics {A}.

Definition M (A : Type) : Type := World → outcome A.

#[global] Instance M_ret : MRet M := λ A a w, Returns a w.
#[global] Instance M_bind : MBind M := λ A B f m w,
  match m w with
  | Returns a w' => f a w'
  | Panics => Panics
  end.

Definition panic {A : Type} : M A := λ _, Panics.

(** Reading the package variable [cidrs]. *)
Definition read_cidrs : M (list (option net.IPNet)) := λ w, Returns (cidrs w) w.

(** Assigning the package variable [cidrs]. *)
Definition write_cidrs (cs : list (option net.IPNet)) : M unit :=
  λ w, Returns tt {| cidrs := cs; requests := requests w |}.

(** Dereferencing a request pointer; nil, or any pointer that is not
    allocated, panics. *)
Definition load (r : loc) : M http.Request := λ w,
  match requests w !! r with
  | Some req => Returns req w
  | None => Panics
  end.

(** ** [realip.go] *)

Definition xForwardedForHeader : string :=
  http.CanonicalHeaderKey "X-Forwarded-For".
Definition xRealIpHeader : string := http.CanonicalHeaderKey "X-Real-IP".
Definition forwardedHeader : string := http.CanonicalHeaderKey "Forwarded".

Definition maxCidrBlocks : list string :=
  [ "127.0.0.1/8";    (* localhost *)
    "10.0.0.0/8";     (* 24-bit block *)
    "172.16.0.0/12";  (* 20-bit block *)
    "192.168.0.0/16"; (* 16-bit block *)
    "169.254.0.0/16"; (* link local address *)
    "::1/128";        (* localhost IPv6 *)
    "fc00::/7";       (* unique local address IPv6 *)
    "fe80::/10"       (* link local address IPv6 *)
  ].

(** [cidrs[i] = cidr]; an index out of range panics. *)
Definition store_cidr (i : nat) (cidr : option net.IPNet) : M unit := λ w,
  if (i <? length (cidrs w))%nat then
    Returns tt {| cidrs := <[i := cidr]> (cidrs w); requests := requests w |}
  else Panics.

(** The loop [for i, maxCidrBlock := range maxCidrBlocks] of [init]; the
    address and the error of [net.ParseCIDR] are dropped. *)
Fixpoint init_loop (i : nat) (blocks : list string) : M unit :=
  match blocks with
  | [] => mret tt
  | maxCidrBlock :: rest =>
      let '(_, cidr, _) := net.ParseCIDR maxCidrBlock in
      _ ← store_cidr i cidr;
      init_loop (S i) rest
  end.

(** [init]: [cidrs] is made with one nil entry for each block, then filled. *)
Definition init : M unit :=
  _ ← write_cidrs (replicate (length maxCidrBlocks) None);
  init_loop 0 maxCidrBlocks.

(** The loop [for i := range cidrs] of [isPrivateAddress].  The method
    [Contains] reads the fields of its receiver, so a nil entry panics. *)
Fixpoint isPrivateAddress_loop (cs : list (option net.IPNet)) (ipAddress : net.IP)
    : M (bool * option error) :=
  match cs with
  | [] => mret (false, None)
  | None :: _ => panic
  | Some cidr :: cs' =>
      if net.Contains cidr ipAddress then mret (true, None)
      else isPrivateAddress_loop cs' ipAddress
  end.

Definition isPrivateAddress (address : string) : M (bool * option error) :=
  match net.ParseIP address with
  | None => mret (false, Some (errors.New "address is not valid"))
  | Some ipAddress =>
      cs ← read_cidrs;
      isPrivateAddress_loop cs ipAddress
  end.

(** The condition [!isPrivate && err == nil]. *)
Definition is_global (res : bool * option error) : bool :=
  negb res.1 && bool_decide (res.2 = None).

(** The inner loop over [strings.Split(a, ",")] of the scan of
    X-Forwarded-For: [Some address] when the function returns [address],
    [None] when the loop ends. *)
Fixpoint xForwardedFor_inner (bs : list string) : M (option string) :=
  match bs with
  | [] => mret None
  | b :: bs' =>
      let address := strings.TrimSpace b in
      res ← isPrivateAddress address;
      if is_global res then mret (Some address)
      else xForwardedFor_inner bs'
  end.

(** The outer loop [for _, a := range xForwardedFor]. *)
Fixpoint xForwardedFor_loop (xForwardedFor : list string) : M (option string) :=
  match xForwardedFor with
  | [] => mret None
  | a :: rest =>
      res ← xForwardedFor_inner (strings.Split a ",");
      match res with
      | Some address => mret (Some address)
      | None => xForwardedFor_loop rest
      end
  end.

(** The cutsets of the two trims of a Forwarded value. *)
Definition cutset_left : string := String dquote "[".
Definition cutset_right : string := String "]" (String dquote EmptyString).

(** The inner loop over [strings.Split(a, ",")] of the scan of Forwarded. *)
Fixpoint forwarded_inner (bs : list string) : M (option string) :=
  match bs with
  | [] => mret None
  | b :: bs' =>
      if strings.Contains b "for" then
        match strings.Split b "=" with
        | [_; c1] =>
            let address :=
              strings.TrimRight
                (strings.TrimLeft (strings.TrimSpace c1) cutset_left)
                cutset_right in
            res ← isPrivateAddress address;
            if is_global res then mret (Some address)
            else forwarded_inner bs'
        | _ => forwarded_inner bs'
        end
      else forwarded_inner bs'
  end.

(** The outer loop [for _, a := range strings.Split(forwarded, ";")]. *)
Fixpoint forwarded_loop (groups : list string) : M (option string) :=
  match groups with
  | [] => mret None
  | a :: rest =>
      res ← forwarded_inner (strings.Split a ",");
      match res with
      | Some address => mret (Some address)
      | None => forwarded_loop rest
      end
  end.

(** [FromRequest] *)
Definition FromRequest (r : loc) : M string :=
  req ← load r;
  let xRealIP := http.Get (http.Header req) xRealIpHeader in
  let xForwardedFor := http.index (http.Header req) xForwardedForHeader in
  let forwarded := http.Get (http.Header req) forwardedHeader in
  if String.eqb xRealIP "" && (length xForwardedFor =? 0)%nat
     && String.eqb forwarded ""
  then
    if strings.ContainsRune (http.RemoteAddr req) ":" then
      let '(remoteIP, _, _) := net.SplitHostPort (http.RemoteAddr req) in
      mret remoteIP
    else mret (http.RemoteAddr req)
  else
    res ← xForwardedFor_loop xForwardedFor;
    match res with
    | Some address => mret address
    | None =>
        res ← forwarded_loop (strings.Split forwarded ";");
        match res with
        | Some address => mret address
        | None => mret xRealIP
        end
    end.

(** [RealIP], deprecated, is [FromRequest]. *)
Definition RealIP (r : loc) : M string := FromRequest r.

(** * The reserved-block table *)

(** The eight networks that [init] stores, written out. *)
Definition reserved_nets : list net.IPNet :=
  [ {| net.IPNet_IP := [127; 0; 0; 0]; net.IPNet_Mask := [255; 0; 0; 0] |};
    {| net.IPNet_IP := [10; 0; 0; 0]; net.IPNet_Mask := [255; 0; 0; 0] |};
    {| net.IPNet_IP := [172; 16; 0; 0]; net.IPNet_Mask := [255; 240; 0; 0] |};
    {| net.IPNet_IP := [192; 168; 0; 0]; net.IPNet_Mask := [255; 255; 0; 0] |};
    {| net.IPNet_IP := [169; 254; 0; 0]; net.IPNet_Mask := [255; 255; 0; 0] |};
    {| net.IPNet_IP := [0; 0; 0; 0; 0; 0; 0; 0; 0; 0; 0; 0; 0; 0; 0; 1];
       net.IPNet_Mask := replicate 16 255 |};
    {| net.IPNet_IP := 252 :: replicate 15 0;
       net.IPNet_Mask := 254 :: replicate 15 0 |};
    {| net.IPNet_IP := 254 :: 128 :: replicate 14 0;
       net.IPNet_Mask := 255 :: 192 :: replicate 14 0 |} ]%Z.

(** The state of [cidrs] once the package is initialised. *)
Definition after_init (w : World) : Prop :=
  cidrs w = map (λ b, (net.ParseCIDR b).1.2) maxCidrBlocks.

(** An address is reserved when a network of the table contains it. *)
Definition reserved (ip : net.IP) : bool :=
  existsb (λ n, net.Contains n ip) reserved_nets.

(** What [isPrivateAddress] returns on an initialised table. *)
Definition classify (address : string) : bool * option error :=
  match net.ParseIP address with
  | None => (false, Some (errors.New "address is not valid"))
  | Some ip => (reserved ip, None)
  end.

(** A candidate is public when it parses and no reserved block holds it. *)
Definition public (address : string) : bool :=
  match net.ParseIP address with
  | None => false
  | Some ip => negb (reserved ip)
  end.

(** * The candidates of a request, in the order of the scan *)

Definition xRealIP_of (req : http.Request) : string :=
  http.Get (http.Header req) xRealIpHeader.
Definition xForwardedFor_of (req : http.Request) : list string :=
  http.index (http.Header req) xForwardedForHeader.
Definition forwarded_of (req : http.Request) : string :=
  http.Get (http.Header req) forwardedHeader.

(** No header of the three carries a value. *)
Definition all_absent (req : http.Request) : bool :=
  String.eqb (xRealIP_of req) "" && (length (xForwardedFor_of req) =? 0)%nat
  && String.eqb (forwarded_of req) "".

(** The tokens of X-Forwarded-For: header values in the order received,
    each cut at its commas. *)
Definition xff_tokens (xForwardedFor : list string) : list string :=
  a ← xForwardedFor; strings.Split a ",".

(** The pieces of Forwarded: the value cut at [;], each group cut at [,]. *)
Definition forwarded_pieces (forwarded : string) : list string :=
  a ← strings.Split forwarded ";"; strings.Split a ",".

(** What is stripped from the value of a [for] parameter: the white space
    around it, then every leading quote or opening bracket, then every
    trailing closing bracket or quote. *)
Definition strip_for_value (c1 : string) : string :=
  strings.TrimRight (strings.TrimLeft (strings.TrimSpace c1) cutset_left)
    cutset_right.

(** The address that a piece of Forwarded offers, if any. *)
Definition piece_candidate (b : string) : option string :=
  if strings.Contains b "for" then
    match strings.Split b "=" with
    | [_; c1] => Some (strip_for_value c1)
    | _ => None
    end
  else None.

Definition forwarded_candidates (forwarded : string) : list string :=
  omap piece_candidate (forwarded_pieces forwarded).

(** The host that the all-absent path takes from the remote address. *)
Definition remote_host (remoteAddr : string) : string :=
  if strings.ContainsRune remoteAddr ":" then (net.SplitHostPort remoteAddr).1.1
  else remoteAddr.

(** The value that [FromRequest] returns, as a function of the request. *)
Definition resolve (req : http.Request) : string :=
  if all_absent req then remote_host (http.RemoteAddr req)
  else
    match List.find public (strings.TrimSpace <$> xff_tokens (xForwardedFor_of req)) with
    | Some address => address
    | None =>
        match List.find public (forwarded_candidates (forwarded_of req)) with
        | Some address => address
        | None => xRealIP_of req
        end
    end.

(** * Requests of the test file

    [realip_test.go] builds its requests with [Header.Set] and
    [Header.Add]; the same construction gives the concrete requests below. *)

(** [Header.Set]: the values of the canonical key become [[value]]. *)
Definition Header_Set (h : http.MIMEHeader) (key value : string)
    : http.MIMEHeader :=
  <[http.CanonicalHeaderKey key := [value]]> h.

(** [Header.Add]: [value] is appended to the values of the canonical key. *)
Definition Header_Add (h : http.MIMEHeader) (key value : string)
    : http.MIMEHeader :=
  let key := http.CanonicalHeaderKey key in
  <[key := http.index h key ++ [value]]> h.

(** [newRequest] of [TestRealIP]. *)
Definition newRequest (remoteAddr xRealIP : string) (forwarded : bool)
    (xForwardedFor : list string) : http.Request :=
  let h : http.MIMEHeader := ∅ in
  let h := if negb (String.eqb xRealIP "") then Header_Set h "X-Real-IP" xRealIP
           else h in
  let h :=
    if forwarded then
      foldl (λ h address, Header_Add h "Forwarded" address) h xForwardedFor
    else
      foldl (λ h address, Header_Add h "X-Forwarded-For" address) h
        xForwardedFor in
  {| http.RemoteAddr := remoteAddr; http.Header := h |}.

(** The state in which the package is initialised and [req] is the one
    request allocated, at address 1. *)
Definition world_with (req : http.Request) : World :=
  {| cidrs := map (λ b, (net.ParseCIDR b).1.2) maxCidrBlocks;
     requests := {[ 1%positive := req ]} |}.

(** * Readings of the specification that the code does not follow *)

(** Removing one layer: at most one leading quote or opening bracket, and
    at most one trailing closing bracket or quote. *)
Definition strip_one_layer (v : string) : string :=
  let v :=
    match v with
    | String c v' => if strings.in_cutset c cutset_left then v' else v
    | EmptyString => v
    end in
  match String.rev v with
  | String c rv' =>
      if strings.in_cutset c cutset_right then String.rev rv' else v
  | EmptyString => v
  end.

(** The candidates of Forwarded when the second part of a [for] piece is
    taken as it is and one layer is removed. *)
Definition piece_candidate_one_layer (b : string) : option string :=
  if strings.Contains b "for" then
    match strings.Split b "=" with
    | [_; c1] => Some (strip_one_layer c1)
    | _ => None
    end
  else None.

Definition forwarded_candidates_one_layer (forwarded : string) : list string :=
  omap piece_candidate_one_layer (forwarded_pieces forwarded).

(** Cutting the remote address at its last colon. *)
Definition cut_at_last_colon (remoteAddr : string) : string :=
  match LastIndexByteString remoteAddr ":" with
  | Some i => slice_to i remoteAddr
  | None => remoteAddr
  end.

(** * Concrete requests *)

(** Two occurrences of X-Forwarded-For, the first with reserved addresses
    only. *)
Definition req_xff_chain : http.Request :=
  newRequest "" "" false ["127.0.0.0, 10.1.2.3"; "144.12.54.87,8.8.8.8"].

(** A Forwarded header whose first [for] value is wrapped in two layers of
    brackets. *)
Definition req_forwarded_two_layers : http.Request :=
  newRequest "" "" true ["for=[[2001:db8::1]],for=9.9.9.9"].

(** A Forwarded header with a reserved address, a piece with two [=], and a
    quoted public address between spaces. *)
Definition req_forwarded_quoted : http.Request :=
  newRequest "" "" true
    ["for=192.168.1.1;for=a=b, for= " +:+ String dquote "[2001:db8::1]"
     +:+ String dquote " ;by=203.0.113.43"].

(** No header at all, a bracketed IPv6 remote address with a port. *)
Definition req_remote_bracketed : http.Request :=
  newRequest "[2001:db8::1]:443" "" false [].

(** No header at all, a bare IPv6 remote address. *)
Definition req_remote_bare_ipv6 : http.Request :=
  newRequest "::1" "" false [].

(** No header at all, an IPv4 remote address with a port. *)
Definition req_remote_port : http.Request :=
  newRequest "13.182.55.11:8080" "" false [].

(** X-Forwarded-For with a reserved address only, nothing else. *)
Definition req_xff_private : http.Request :=
  newRequest "203.0.113.7:4711" "" false ["10.0.0.1"].

(** X-Real-IP next to forwarding headers that offer no public address. *)
Definition req_real_ip : http.Request :=
  newRequest "203.0.113.7:4711" "198.51.100.4" false ["10.0.0.1, unknown"].

(** The same headers as [req_real_ip] and one more that the resolver does
    not read. *)
Definition req_real_ip_extra : http.Request :=
  {| http.RemoteAddr := "203.0.113.7:4711";
     http.Header :=
       Header_Set (http.Header req_real_ip) "User-Agent" "curl/8.5.0" |}.

(** A host or a port without colon and without brackets. *)
Definition plain (s : string) : Prop :=
  IndexByteString s ":" = None ∧ IndexByteString s "[" = None
  ∧ IndexByteString s "]" = None.

(** * Addresses as numbers *)

Definition is_byte (b : Z) : Prop := (0 ≤ b < 256)%Z.

(** A slice of [n] bytes. *)
Definition wf_bytes (n : nat) (l : list Z) : Prop :=
  length l = n ∧ Forall is_byte l.

(** The number that the bytes write, the first byte being the highest. *)
Definition value (bytes : list Z) : Z :=
  foldl (λ acc b, acc * 256 + b)%Z 0%Z bytes.

(** An address [a] of [bits] bits is inside [prefix/len] when its first
    [len] bits are those of the prefix. *)
Definition in_prefix (bits : Z) (prefix : list Z) (len : Z) (a : Z) : bool :=
  (a / 2 ^ (bits - len) =? value prefix / 2 ^ (bits - len))%Z.

(** The reserved prefixes of the specification. *)
Definition reserved_prefixes4 : list (list Z * Z) :=
  [ ([127; 0; 0; 0], 8); ([10; 0; 0; 0], 8); ([172; 16; 0; 0], 12);
    ([192; 168; 0; 0], 16); ([169; 254; 0; 0], 16) ]%Z.

Definition reserved_prefixes6 : list (list Z * Z) :=
  [ ([0; 0; 0; 0; 0; 0; 0; 0; 0; 0; 0; 0; 0; 0; 0; 1], 128);
    (252 :: replicate 15 0, 7);
    (254 :: 128 :: replicate 14 0, 10) ]%Z.

(** A parsed address, 16 bytes, is inside a reserved prefix of its family:
    when its first 12 bytes are the IPv4-mapped prefix [::ffff:0:0/96] it is
    the IPv4 address of 32 bits that its last 4 bytes write, otherwise it is
    an IPv6 address of 128 bits. *)
Definition in_reserved_prefix (ip : net.IP) : bool :=
  if bool_decide (take 12 ip = netip.v4InV6Prefix) then
    existsb (λ p, in_prefix 32 p.1 p.2 (value (drop 12 ip))) reserved_prefixes4
  else
    existsb (λ p, in_prefix 128 p.1 p.2 (value ip)) reserved_prefixes6.

(** The value that a computation returns, [None] when it panics. *)
Definition returned {A : Type} (o : outcome A) : option A :=
  match o with
  | Returns a _ => Some a
  | Panics => None
  end.

(** The state before [init] has run, with one request allocated. *)
Definition world_before_init (req : http.Request) : World :=
  {| cidrs := []; requests := {[ 1%positive := req ]} |}.

(** * The bytes of an address literal *)

(** A hexadecimal digit, a dot or a colon. *)
Definition ip_char (c : ascii) : bool :=
  let b := code c in
  ((48 <=? b) && (b <=? 57) || (97 <=? b) && (b <=? 102)
   || (65 <=? b) && (b <=? 70) || (b =? 46) || (b =? 58))%Z.

(** A decimal digit or a dot. *)
Definition v4_char (c : ascii) : bool :=
  let b := code c in ((48 <=? b) && (b <=? 57) || (b =? 46))%Z.

(** A decimal digit. *)
Definition is_digit (c : ascii) : bool :=
  ((48 <=? code c) && (code c <=? 57))%Z.

(** Every byte of [s] satisfies [P]. *)
Fixpoint all_bytes (P : ascii → bool) (s : string) : bool :=
  match s with
  | EmptyString => true
  | String c s' => P c && all_bytes P s'
  end.

(** * More concrete states and requests *)

(** A table of four nil entries, as [make] leaves it, and no request. *)
Definition world_made : World :=
  {| cidrs := [None; None; None; None]; requests := ∅ |}.

(** A table whose second entry is nil, as [init] would leave it had the
    second block failed to parse. *)
Definition world_nil_entry : World :=
  {| cidrs := [Some {| net.IPNet_IP := [10; 0; 0; 0]%Z;
                       net.IPNet_Mask := [255; 0; 0; 0]%Z |}; None];
     requests := ∅ |}.

(** The headers of [req_real_ip] with another remote address. *)
Definition req_real_ip_other_remote : http.Request :=
  {| http.RemoteAddr := "198.18.0.1:9";
     http.Header := http.Header req_real_ip |}.

(** The X-Forwarded-For values of [req_xff_chain] next to a Forwarded and
    an X-Real-IP header, with another remote address. *)
Definition req_xff_chain_more : http.Request :=
  {| http.RemoteAddr := "192.0.2.1:1";
     http.Header :=
       Header_Set (Header_Set (http.Header req_xff_chain) "Forwarded"
                     "for=9.9.9.9") "X-Real-IP" "1.1.1.1" |}.

(** One occurrence of Forwarded, and the same followed by a second one. *)
Definition req_forwarded_once : http.Request :=
  {| http.RemoteAddr := "";
     http.Header := <[forwardedHeader := ["for=8.8.8.8"]]> ∅ |}.
Definition req_forwarded_twice : http.Request :=
  {| http.RemoteAddr := "";
     http.Header := <[forwardedHeader := ["for=8.8.8.8"; "for=9.9.9.9"]]> ∅ |}.

(** Two addresses in one X-Forwarded-For value, and in two. *)
Definition req_xff_joined : http.Request :=
  newRequest "" "" false ["10.0.0.1,8.8.8.8"].
Definition req_xff_separate : http.Request :=
  newRequest "" "" false ["10.0.0.1"; "8.8.8.8"].

(** A Forwarded header whose parameter name is capitalised. *)
Definition req_forwarded_capital : http.Request :=
  newRequest "" "198.51.100.4" true ["For=8.8.8.8"].

(** A Forwarded header whose parameter name only contains [for]. *)
Definition req_forwarded_before : http.Request :=
  newRequest "" "" true ["before=8.8.8.8"].

(** * Lemmas on the embedding *)

(** ** The library functions on concrete inputs *)

Example TrimSpace_ex1 : strings.TrimSpace " 10.0.0.1  " = "10.0.0.1".
Proof. reflexivity. Qed.

Example CanonicalHeaderKey_real_ip :
  http.CanonicalHeaderKey "X-Real-IP" = "X-Real-Ip".
Proof. reflexivity. Qed.

Example ParseAddr_ex1 :
  netip.As16 <$> netip.ParseAddr "172.16.0.1"
  = Some [0; 0; 0; 0; 0; 0; 0; 0; 0; 0; 255; 255; 172; 16; 0; 1]%Z.
Proof. reflexivity. Qed.

Example ParseAddr_ex2 :
  netip.As16 <$> netip.ParseAddr "fe80::1:2"
  = Some [254; 128; 0; 0; 0; 0; 0; 0; 0; 0; 0; 0; 0; 1; 0; 2]%Z.
Proof. reflexivity. Qed.

Example ParseAddr_ex3 :
  netip.As16 <$> netip.ParseAddr "::ffff:10.1.2.3"
  = Some [0; 0; 0; 0; 0; 0; 0; 0; 0; 0; 255; 255; 10; 1; 2; 3]%Z.
Proof. reflexivity. Qed.

(** An IPv4-mapped IPv6 literal and the IPv4 address it holds parse to the
    same bytes. *)
Example ParseIP_mapped : net.ParseIP "::ffff:10.0.0.1" = net.ParseIP "10.0.0.1".
Proof. reflexivity. Qed.

(** Leading zeros, a zone, brackets and surrounding spaces are refused. *)
Example ParseIP_refused :
  net.ParseIP <$> ["010.0.0.1"; "fe80::1%eth0"; "[::1]"; " 8.8.8.8"; ""]
  = [None; None; None; None; None].
Proof. reflexivity. Qed.

Example SplitHostPort_ex1 :
  net.SplitHostPort "13.182.55.11:8080" = ("13.182.55.11", "8080", None).
Proof. reflexivity. Qed.

Example SplitHostPort_ex2 :
  net.SplitHostPort "[2001:db8::1]:443" = ("2001:db8::1", "443", None).
Proof. reflexivity. Qed.

Example ParseCIDR_ex1 :
  (net.ParseCIDR "127.0.0.1/8").1.2
  = Some {| net.IPNet_IP := [127; 0; 0; 0]%Z;
            net.IPNet_Mask := [255; 0; 0; 0]%Z |}.
Proof. reflexivity. Qed.

Example ParseCIDR_ex2 :
  (net.ParseCIDR "fe80::/10").1.2
  = Some {| net.IPNet_IP := [254; 128; 0; 0; 0; 0; 0; 0; 0; 0; 0; 0; 0; 0; 0; 0]%Z;
            net.IPNet_Mask := [255; 192; 0; 0; 0; 0; 0; 0; 0; 0; 0; 0; 0; 0; 0; 0]%Z |}.
Proof. reflexivity. Qed.

(** ** The fuel of the loops is enough *)

Lemma parseIPv6_loop_round k1 k2 s ip i ellipsis :
  (∀ s' ip' e', netip.parseIPv6_loop k1 s' ip' (i + 2) e'
                = netip.parseIPv6_loop k2 s' ip' (i + 2) e') →
  netip.parseIPv6_loop (S k1) s ip i ellipsis
  = netip.parseIPv6_loop (S k2) s ip i ellipsis.
Proof. intros Hk. simpl. repeat case_match; done || apply Hk. Qed.

Lemma parseIPv6_loop_fuel fuel : ∀ s ip i ellipsis,
  16 ≤ i + 2 * fuel →
  netip.parseIPv6_loop (S fuel) s ip i ellipsis
  = netip.parseIPv6_loop fuel s ip i ellipsis.
Proof.
  induction fuel as [|fuel IH]; intros s ip i ellipsis Hi.
  - simpl. by rewrite (proj2 (Nat.ltb_ge i 16)) by lia.
  - apply parseIPv6_loop_round. intros. apply IH. lia.
Qed.

(** Eight rounds are as good as any larger number. *)
Lemma parseIPv6_loop_8 k s ip ellipsis :
  netip.parseIPv6_loop (8 + k) s ip 0 ellipsis
  = netip.parseIPv6_loop 8 s ip 0 ellipsis.
Proof.
  induction k as [|k IH]; [done|].
  rewrite <- IH. replace (8 + S k) with (S (8 + k)) by lia.
  apply parseIPv6_loop_fuel. lia.
Qed.

Lemma back_scan_fuel fuel : ∀ s start lim,
  (start - lim < Z.of_nat fuel)%Z →
  utf8.back_scan (S fuel) s start lim = utf8.back_scan fuel s start lim.
Proof.
  induction fuel as [|fuel IH]; intros s start lim Hs.
  - simpl. by rewrite (proj2 (Z.ltb_lt start lim)) by lia.
  - remember (S fuel) as n eqn:Hn. simpl. subst n.
    change (utf8.back_scan (S fuel) s start lim)
      with (if (start <? lim)%Z then start
            else if utf8.RuneStart (byte_at s (Z.to_nat start)) then start
            else utf8.back_scan fuel s (start - 1) lim).
    repeat case_match; try done. apply IH. lia.
Qed.

Lemma DecodeRuneInString_size s r size :
  s ≠ "" → utf8.DecodeRuneInString s = (r, size) → 1 ≤ size ≤ String.length s.
Proof.
  intros Hs. unfold utf8.DecodeRuneInString.
  destruct s as [|c s]; [done|]. 
  repeat case_match; intros [= <- <-]; simpl; try lia.
  all: repeat match goal with
         | H : (_ <? _)%nat = false |- _ => apply Nat.ltb_ge in H
         | H : (_ <=? _)%nat = true |- _ => apply Nat.leb_le in H
         | H : (_ <=? _)%nat = false |- _ => apply Nat.leb_gt in H
         end; simpl in *; try lia.
  all: unfold utf8.first in *; repeat case_match; simplify_eq; lia.
Qed.

Lemma length_slice_from n : ∀ s,
  String.length (slice_from n s) = String.length s - n.
Proof.
  induction n as [|n IH]; intros [|c s]; simpl; done.
Qed.

Lemma indexFunc_from_fuel f truth fuel : ∀ s i,
  String.length s ≤ fuel →
  strings.indexFunc_from (S fuel) s i f truth
  = strings.indexFunc_from fuel s i f truth.
Proof.
  induction fuel as [|fuel IH]; intros s i Hs.
  - destruct s; [done|simpl in Hs; lia].
  - remember (S fuel) as n eqn:Hn. simpl. subst n.
    change (strings.indexFunc_from (S fuel) s i f truth)
      with (if (String.length s =? 0)%nat then None
            else let '(r, size) := utf8.DecodeRuneInString s in
                 if Bool.eqb (f r) truth then Some i
                 else strings.indexFunc_from fuel (slice_from size s)
                        (i + size) f truth).
    destruct (Nat.eqb_spec (String.length s) 0) as [|Hne]; [done|].
    destruct (utf8.DecodeRuneInString s) as [r size] eqn:Hd.
    destruct (Bool.eqb (f r) truth); [done|].
    apply IH. rewrite length_slice_from.
    apply DecodeRuneInString_size in Hd; [lia|by intros ->].
Qed.

Lemma back_scan_le fuel : ∀ s start lim,
  (utf8.back_scan fuel s start lim ≤ start)%Z.
Proof.
  induction fuel as [|fuel IH]; intros s start lim; simpl; [lia|].
  repeat case_match; try lia. specialize (IH s (start - 1)%Z lim). lia.
Qed.

Lemma DecodeLastRuneInString_size s r size :
  s ≠ "" → utf8.DecodeLastRuneInString s = (r, size) → 1 ≤ size.
Proof.
  intros Hs. unfold utf8.DecodeLastRuneInString.
  assert (0 < String.length s) by (destruct s; [done|simpl; lia]).
  rewrite (proj2 (Z.eqb_neq _ 0)) by lia.
  destruct (_ <? utf8.RuneSelf)%Z; [by intros [= <- <-]|].
  destruct (utf8.DecodeRuneInString _) as [r' size'].
  destruct (_ =? _)%Z eqn:He; simpl; intros [= <- <-]; [|lia].
  apply Z.eqb_eq in He.
  pose proof (back_scan_le 4 s (Z.of_nat (String.length s) - 1 - 1)
                (Z.max 0 (Z.of_nat (String.length s) - utf8.UTFMax))).
  lia.
Qed.

Lemma slice_0_nonempty i s : i ≠ 0 → s ≠ "" → slice 0 i s ≠ "".
Proof. by destruct i, s. Qed.

Lemma lastIndexFunc_from_fuel f truth s fuel : ∀ i,
  i ≤ fuel → i ≤ String.length s →
  strings.lastIndexFunc_from (S fuel) s i f truth
  = strings.lastIndexFunc_from fuel s i f truth.
Proof.
  induction fuel as [|fuel IH]; intros i Hi Hs.
  - by replace i with 0 by lia.
  - remember (S fuel) as n eqn:Hn. simpl. subst n.
    change (strings.lastIndexFunc_from (S fuel) s i f truth)
      with (if (i =? 0)%nat then None
            else let '(r, size) := utf8.DecodeLastRuneInString (slice 0 i s) in
                 let i := (i - size)%nat in
                 if Bool.eqb (f r) truth then Some i
                 else strings.lastIndexFunc_from fuel s i f truth).
    destruct (Nat.eqb_spec i 0) as [|Hne]; [done|].
    destruct (utf8.DecodeLastRuneInString _) as [r size] eqn:Hd. cbv zeta.
    destruct (Bool.eqb (f r) truth); [done|].
    apply DecodeLastRuneInString_size in Hd.
    + apply IH; lia.
    + apply slice_0_nonempty; [done|]. intros ->. simpl in Hs. lia.
Qed.

(** ** Indexes and slices of a concatenation *)

Lemma app_empty s : "" +:+ s = s.
Proof. reflexivity. Qed.

Lemma app_String c s1 s2 : String c s1 +:+ s2 = String c (s1 +:+ s2).
Proof. reflexivity. Qed.

Lemma IndexByteString_app s1 s2 c :
  IndexByteString (s1 +:+ s2) c
  = match IndexByteString s1 c with
    | Some i => Some i
    | None => (λ i, String.length s1 + i)%nat <$> IndexByteString s2 c
    end.
Proof.
  induction s1 as [|d s1 IH].
  - rewrite app_empty. simpl. by destruct (IndexByteString s2 c).
  - rewrite app_String. simpl.
    destruct (Ascii.eqb d c); [done|]. rewrite IH.
    destruct (IndexByteString s1 c); [done|].
    by destruct (IndexByteString s2 c).
Qed.

Lemma LastIndexByteString_app s1 s2 c :
  LastIndexByteString (s1 +:+ s2) c
  = match LastIndexByteString s2 c with
    | Some i => Some (String.length s1 + i)%nat
    | None => LastIndexByteString s1 c
    end.
Proof.
  induction s1 as [|d s1 IH].
  - rewrite app_empty. simpl. by destruct (LastIndexByteString s2 c).
  - rewrite app_String. simpl.
    rewrite IH. by destruct (LastIndexByteString s2 c).
Qed.

Lemma LastIndexByteString_None s c :
  IndexByteString s c = None → LastIndexByteString s c = None.
Proof.
  induction s as [|d s IH]; simpl; [done|].
  destruct (Ascii.eqb d c); [done|].
  destruct (IndexByteString s c); [done|]. intros _. by rewrite IH.
Qed.

Lemma slice_to_app s1 s2 : slice_to (String.length s1) (s1 +:+ s2) = s1.
Proof.
  induction s1 as [|d s1 IH]; [done|].
  rewrite app_String. simpl. by rewrite IH.
Qed.

Lemma slice_from_app s1 s2 : slice_from (String.length s1) (s1 +:+ s2) = s2.
Proof.
  induction s1 as [|d s1 IH]; [done|].
  rewrite app_String. simpl. by rewrite IH.
Qed.

Lemma slice_from_S_app s1 c s2 :
  slice_from (S (String.length s1)) (s1 +:+ String c s2) = s2.
Proof.
  induction s1 as [|d s1 IH]; [reflexivity|].
  rewrite app_String. simpl. exact IH.
Qed.

Lemma code_inj c d : code c = code d → c = d.
Proof.
  unfold code. intros H%(inj Z.of_N).
  apply (f_equal ascii_of_N) in H. by rewrite !ascii_N_embedding in H.
Qed.

Lemma byte_at_0_String c s : byte_at (String c s) 0 = code c.
Proof. reflexivity. Qed.

(** The first byte of [s ++ c :: rest] is not [x] when [x] is not in [s]
    and is not [c]. *)
Lemma first_byte_absent s x c rest :
  IndexByteString s x = None → c ≠ x →
  byte_at (s +:+ String c rest) 0 ≠ code x.
Proof.
  intros Hs Hc. destruct s as [|d s].
  - rewrite app_empty, byte_at_0_String. by intros ?%code_inj.
  - rewrite app_String, byte_at_0_String. intros ->%code_inj.
    simpl in Hs. by rewrite Ascii.eqb_refl in Hs.
Qed.

Lemma length_app_string s1 s2 :
  String.length (s1 +:+ s2) = (String.length s1 + String.length s2)%nat.
Proof.
  induction s1 as [|d s1 IH]; [reflexivity|].
  rewrite app_String. simpl. by rewrite IH.
Qed.

Lemma slice_from_app_plus s1 s2 k :
  slice_from (String.length s1 + k) (s1 +:+ s2) = slice_from k s2.
Proof.
  induction s1 as [|d s1 IH]; [reflexivity|].
  rewrite app_String. simpl. exact IH.
Qed.

(** ** The host of the remote address *)

Lemma SplitHostPort_error_host hostport host port e :
  net.SplitHostPort hostport = (host, port, Some e) → host = "".
Proof.
  unfold net.SplitHostPort. cbv zeta beta.
  repeat case_match; intros ?; by simplify_eq.
Qed.

Lemma SplitHostPort_bracketed host port :
  IndexByteString host "[" = None → IndexByteString host "]" = None →
  IndexByteString port ":" = None →
  IndexByteString port "[" = None → IndexByteString port "]" = None →
  net.SplitHostPort (String "[" (host +:+ String "]" (String ":" port)))
  = (host, port, None).
Proof.
  intros Hho Hhb Hpc Hpo Hpb. unfold net.SplitHostPort. cbv zeta beta.
  rewrite byte_at_0_String. change (code "[" =? 91)%Z with true.
  simpl LastIndexByteString. rewrite LastIndexByteString_app.
  simpl LastIndexByteString.
  rewrite (LastIndexByteString_None port ":") by done.
  simpl IndexByteString.
  rewrite IndexByteString_app, Hhb. simpl IndexByteString. simpl fmap.
  cbv iota beta.
  set (n := String.length host).
  assert (Hlen : String.length (String "[" (host +:+ String "]" (String ":" port)))
                 = (n + 3 + String.length port)%nat).
  { simpl. rewrite length_app_string. simpl. lia. }
  rewrite Hlen.
  replace (S (n + 0) + 1)%nat with (n + 2)%nat by lia.
  replace (S (n + 1))%nat with (n + 2)%nat by lia.
  rewrite (proj2 (Nat.eqb_neq _ _)) by lia.
  rewrite Nat.eqb_refl.
  assert (Hj : slice_from 1 (String "[" (host +:+ String "]" (String ":" port)))
               = host +:+ String "]" (String ":" port)) by reflexivity.
  rewrite Hj, IndexByteString_app, Hho. simpl IndexByteString. rewrite Hpo.
  simpl fmap. rewrite bool_decide_eq_false_2 by (by intros [? ?]).
  assert (Hk : slice_from (n + 2) (String "[" (host +:+ String "]" (String ":" port)))
               = String ":" port).
  { replace (n + 2)%nat with (S (n + 1)) by lia. subst n. simpl.
    by rewrite slice_from_app_plus. }
  rewrite Hk. simpl IndexByteString. rewrite Hpb. simpl fmap.
  rewrite bool_decide_eq_false_2 by (by intros [? ?]).
  do 2 f_equal.
  - unfold slice. rewrite Hj. replace (S (n + 0) - 1)%nat with n by lia.
    apply slice_to_app.
  - subst n. simpl. by rewrite slice_from_app_plus.
Qed.

Lemma SplitHostPort_plain host port :
  IndexByteString host ":" = None → IndexByteString host "[" = None →
  IndexByteString host "]" = None → IndexByteString port ":" = None →
  IndexByteString port "[" = None → IndexByteString port "]" = None →
  net.SplitHostPort (host +:+ String ":" port) = (host, port, None).
Proof.
  intros Hhc Hho Hhb Hpc Hpo Hpb. unfold net.SplitHostPort. cbv zeta beta.
  rewrite LastIndexByteString_app. simpl LastIndexByteString.
  rewrite (LastIndexByteString_None port ":") by done.
  rewrite Nat.add_0_r.
  destruct (Z.eqb_spec (byte_at (host +:+ String ":" port) 0) 91) as [Hb|_].
  { by apply (first_byte_absent host "[" ":" port) in Hb. }
  rewrite slice_to_app, Hhc. simpl.
  rewrite !IndexByteString_app, Hho, Hhb. simpl.
  rewrite Hpo, Hpb. simpl.
  pose proof (slice_from_S_app host ":" port) as E. simpl in E. by rewrite E.
Qed.

Lemma ContainsRune_app s1 c s2 :
  strings.ContainsRune (s1 +:+ String c s2) c = true.
Proof.
  unfold strings.ContainsRune. apply bool_decide_eq_true_2.
  rewrite IndexByteString_app. simpl. rewrite Ascii.eqb_refl.
  destruct (IndexByteString s1 c); by eexists.
Qed.

Lemma ContainsRune_bracketed host port :
  strings.ContainsRune (String "[" (host +:+ String "]" (String ":" port))) ":"
  = true.
Proof.
  unfold strings.ContainsRune. apply bool_decide_eq_true_2.
  simpl. rewrite IndexByteString_app. simpl.
  destruct (IndexByteString host ":"); by eexists.
Qed.

Lemma cut_at_last_colon_app host port :
  IndexByteString port ":" = None →
  cut_at_last_colon (host +:+ String ":" port) = host.
Proof.
  intros Hp. unfold cut_at_last_colon.
  rewrite LastIndexByteString_app. simpl.
  rewrite (LastIndexByteString_None port ":") by done. simpl.
  rewrite Nat.add_0_r. apply slice_to_app.
Qed.

(** ** The parsers produce 16 bytes *)

Lemma uint8_byte v : is_byte (netip.uint8 v).
Proof. unfold is_byte, netip.uint8. apply Z.mod_pos_bound. lia. Qed.

Lemma wf_bytes_insert n (l : list Z) i v :
  wf_bytes n l → is_byte v → wf_bytes n (<[i:=v]> l).
Proof.
  intros [Hl Hb] Hv. split; [by rewrite length_insert|].
  by apply Forall_insert.
Qed.

Lemma is_byte_lookup (l : list Z) i :
  Forall is_byte l → is_byte (default 0%Z (l !! i)).
Proof.
  intros Hl. destruct (l !! i) as [b|] eqn:Hb; simpl.
  - by eapply Forall_lookup_1.
  - unfold is_byte. lia.
Qed.

Lemma parseIPv4_loop_wf rest : ∀ s i fields val pos digLen fields' val' pos',
  wf_bytes 4 fields →
  netip.parseIPv4_loop s rest i fields val pos digLen = Some (fields', val', pos') →
  wf_bytes 4 fields'.
Proof.
  induction rest as [|c rest IH]; intros s i fields val pos digLen f' v' p' Hwf;
    simpl.
  - by intros [= <- _ _].
  - repeat case_match; try done; intros Hres; eapply IH in Hres; try done.
    apply wf_bytes_insert; [done|apply uint8_byte].
Qed.

Lemma parseIPv4_fields_wf s fields :
  netip.parseIPv4_fields s = Some fields → wf_bytes 4 fields.
Proof.
  unfold netip.parseIPv4_fields.
  destruct (netip.parseIPv4_loop _ _ _ _ _ _ _) as [[[f v] p]|] eqn:Hl; [|done].
  case_match; [done|]. intros [= <-].
  apply wf_bytes_insert; [|apply uint8_byte].
  eapply parseIPv4_loop_wf; [|exact Hl].
  split; [done|]. repeat constructor; unfold is_byte; lia.
Qed.

Lemma expand_wf k : ∀ j n ip, wf_bytes 16 ip → wf_bytes 16 (netip.expand k j n ip).
Proof.
  induction k as [|k IH]; intros j n ip Hwf; simpl; [done|].
  apply IH, wf_bytes_insert; [done|]. apply is_byte_lookup, Hwf.
Qed.

Lemma clear_wf n : ∀ lo ip, wf_bytes 16 ip → wf_bytes 16 (netip.clear n lo ip).
Proof.
  induction n as [|n IH]; intros lo ip Hwf; simpl; [done|].
  apply IH, wf_bytes_insert; [done|]. unfold is_byte. lia.
Qed.

Lemma parseIPv6_finish_wf s ip i ellipsis ip' :
  wf_bytes 16 ip →
  netip.parseIPv6_finish s ip i ellipsis = Some ip' → wf_bytes 16 ip'.
Proof.
  intros Hwf. unfold netip.parseIPv6_finish.
  repeat case_match; try done; intros [= <-]; [|done].
  by apply clear_wf, expand_wf.
Qed.

Lemma parseIPv6_loop_wf fuel : ∀ s ip i ellipsis ip',
  wf_bytes 16 ip →
  netip.parseIPv6_loop fuel s ip i ellipsis = Some ip' → wf_bytes 16 ip'.
Proof.
  induction fuel as [|fuel IH]; intros s ip i ellipsis ip' Hwf; simpl.
  - by apply parseIPv6_finish_wf.
  - repeat case_match; try done; intros Hres;
      first [eapply IH in Hres | eapply parseIPv6_finish_wf in Hres]; try done;
      repeat apply wf_bytes_insert; try done; try apply uint8_byte.
    all: apply is_byte_lookup; eapply parseIPv4_fields_wf; eassumption.
Qed.

Lemma wf_bytes_zero : wf_bytes 16 (replicate 16 0%Z).
Proof. split; [done|]. repeat constructor; unfold is_byte; lia. Qed.

Lemma WithZone_addr a name : netip.addr (netip.WithZone a name) = netip.addr a.
Proof. unfold netip.WithZone. by repeat case_match. Qed.

Lemma parseIPv6_wf s a : netip.parseIPv6 s = Some a → wf_bytes 16 (netip.addr a).
Proof.
  unfold netip.parseIPv6.
  repeat case_match; try done.
  all: try (intros [= <-]; rewrite WithZone_addr; apply wf_bytes_zero).
  all: intros (ip & Hip & ->)%fmap_Some; rewrite WithZone_addr; simpl;
    eapply parseIPv6_loop_wf; [apply wf_bytes_zero|exact Hip].
Qed.

Lemma parseIPv4_wf s a : netip.parseIPv4 s = Some a → wf_bytes 16 (netip.addr a).
Proof.
  unfold netip.parseIPv4. intros (f & [Hl Hb]%parseIPv4_fields_wf & ->)%fmap_Some.
  cbn [netip.AddrFrom4 netip.addr]. split.
  - by rewrite length_app, Hl.
  - apply Forall_app. split; [|done].
    repeat constructor; unfold is_byte; lia.
Qed.

Lemma ParseAddr_scan_wf rest s a :
  netip.ParseAddr_scan s rest = Some a → wf_bytes 16 (netip.addr a).
Proof.
  induction rest as [|c rest IH]; simpl; [done|].
  repeat case_match; try done; eauto using parseIPv4_wf, parseIPv6_wf.
Qed.

Lemma ParseIP_wf s ip : net.ParseIP s = Some ip → wf_bytes 16 ip.
Proof.
  unfold net.ParseIP.
  destruct (netip.ParseAddr s) as [a|] eqn:Ha; [|done].
  case_match; [|done]. intros [= <-]. by eapply ParseAddr_scan_wf.
Qed.

(** ** Bytes under a mask *)

Lemma byte_forall (P : Z → bool) :
  forallb P (Z.of_nat <$> seq 0 256) = true →
  ∀ b, is_byte b → P b = true.
Proof.
  intros H b Hb. rewrite forallb_forall in H. apply H.
  apply list_elem_of_In, list_elem_of_fmap. exists (Z.to_nat b).
  split; [unfold is_byte in Hb; lia|].
  apply elem_of_seq. unfold is_byte in Hb. lia.
Qed.

Lemma land_byte_255 b : is_byte b → Z.land b 255 = b.
Proof.
  intros Hb. apply Z.eqb_eq.
  by apply (byte_forall (λ b, Z.land b 255 =? b)%Z).
Qed.

Lemma land_byte_240 b : is_byte b → Z.land b 240 = (16 * (b / 16))%Z.
Proof.
  intros Hb. apply Z.eqb_eq.
  by apply (byte_forall (λ b, Z.land b 240 =? 16 * (b / 16))%Z).
Qed.

Lemma land_byte_254 b : is_byte b → Z.land b 254 = (2 * (b / 2))%Z.
Proof.
  intros Hb. apply Z.eqb_eq.
  by apply (byte_forall (λ b, Z.land b 254 =? 2 * (b / 2))%Z).
Qed.

Lemma land_byte_192 b : is_byte b → Z.land b 192 = (64 * (b / 64))%Z.
Proof.
  intros Hb. apply Z.eqb_eq.
  by apply (byte_forall (λ b, Z.land b 192 =? 64 * (b / 64))%Z).
Qed.

Lemma masked_eq_cons a nn k m b ip :
  net.masked_eq (a :: nn) (k :: m) (b :: ip)
  = (Z.land a k =? Z.land b k)%Z && net.masked_eq nn m ip.
Proof. simpl. by destruct (Z.land a k =? Z.land b k)%Z. Qed.

Lemma Contains_eq n nn m ip :
  net.networkNumberAndMask n = Some (nn, m) →
  net.Contains n ip
  = (let ip' := default ip (net.To4 ip) in
     if negb (length ip' =? length nn)%nat then false
     else net.masked_eq nn m ip').
Proof.
  intros Hn. unfold net.Contains. rewrite Hn. simpl.
  by destruct (net.To4 ip).
Qed.

Lemma reserved_nets_numbers :
  Forall (λ n, net.networkNumberAndMask n
               = Some (net.IPNet_IP n, net.IPNet_Mask n)) reserved_nets.
Proof. repeat constructor. Qed.

Lemma reserved_eq ip :
  reserved ip
  = (let ip' := default ip (net.To4 ip) in
     existsb (λ n, if negb (length ip' =? length (net.IPNet_IP n))%nat then false
                   else net.masked_eq (net.IPNet_IP n) (net.IPNet_Mask n) ip')
       reserved_nets).
Proof.
  unfold reserved. cbv zeta.
  induction reserved_nets_numbers as [|n nets Hn _ IH]; [done|].
  cbn [existsb]. by rewrite IH, (Contains_eq _ _ _ ip Hn).
Qed.

(** The comparison of masked bytes against the comparison of leading bits:
    the masks are rewritten as divisions, then linear arithmetic decides. *)
Ltac prefix_arith :=
  unfold in_prefix, value; cbn [foldl replicate fst snd];
  rewrite ?Z.land_0_r;
  repeat match goal with
    | Hb : is_byte ?b |- context [Z.land ?b 255] => rewrite (land_byte_255 b Hb)
    | Hb : is_byte ?b |- context [Z.land ?b 240] => rewrite (land_byte_240 b Hb)
    | Hb : is_byte ?b |- context [Z.land ?b 254] => rewrite (land_byte_254 b Hb)
    | Hb : is_byte ?b |- context [Z.land ?b 192] => rewrite (land_byte_192 b Hb)
    end;
  repeat match goal with
    | |- context [Z.land ?a ?b] =>
        let v := eval vm_compute in (Z.land a b) in change (Z.land a b) with v
    | |- context [(2 ^ ?e)%Z] =>
        let v := eval vm_compute in (2 ^ e)%Z in change (2 ^ e)%Z with v
    end;
  apply eq_true_iff_eq;
  rewrite ?andb_true_iff, ?Z.eqb_eq;
  unfold is_byte in *;
  Z.to_euclidean_division_equations; lia.

Lemma To4_16 (ip : net.IP) :
  length ip = 16 →
  net.To4 ip = if bool_decide (take 12 ip = netip.v4InV6Prefix)
               then Some (drop 12 ip) else None.
Proof.
  intros Hl.
  destruct ip as [|b0 [|b1 [|b2 [|b3 [|b4 [|b5 [|b6 [|b7 [|b8 [|b9 [|b10
    [|b11 [|b12 [|b13 [|b14 [|b15 [|? ?]]]]]]]]]]]]]]]]]; try done.
  clear Hl. unfold net.To4, netip.v4InV6Prefix.
  cbn [length Nat.eqb net.IPv4len net.IPv6len andb take drop lookup
       list_lookup from_option id net.isZeros forallb].
  case_bool_decide as Hp.
  - by simplify_eq.
  - case_match eqn:Hc; [|done]. exfalso. apply Hp.
    repeat match goal with
      | H : _ && _ = true |- _ => apply andb_true_iff in H as [? ?]
      end.
    repeat match goal with
      | H : (_ =? _)%Z = true |- _ => apply Z.eqb_eq in H
      end.
    by subst.
Qed.

(** Membership in the table of [init] is membership in a reserved prefix. *)
Lemma reserved_in_prefix ip :
  wf_bytes 16 ip → reserved ip = in_reserved_prefix ip.
Proof.
  intros [Hl Hb]. rewrite reserved_eq. unfold in_reserved_prefix.
  rewrite To4_16 by done.
  destruct ip as [|b0 [|b1 [|b2 [|b3 [|b4 [|b5 [|b6 [|b7 [|b8 [|b9 [|b10
    [|b11 [|b12 [|b13 [|b14 [|b15 [|? ?]]]]]]]]]]]]]]]]]; try done.
  clear Hl.
  repeat match goal with
    | H : Forall _ (_ :: _) |- _ => apply Forall_cons in H as [? H]
    end.
  clear Hb.
  case_bool_decide as Hp; cbv zeta; cbn [from_option id drop].
  - clear Hp. unfold reserved_nets, reserved_prefixes4.
    cbn [existsb length Nat.eqb negb net.IPNet_IP net.IPNet_Mask replicate orb
           fst snd].
    rewrite !masked_eq_cons. cbn [net.masked_eq].
    repeat (apply (f_equal2 orb); [prefix_arith|]). reflexivity.
  - clear Hp. unfold reserved_nets, reserved_prefixes6.
    cbn [existsb length Nat.eqb negb net.IPNet_IP net.IPNet_Mask replicate orb
           fst snd].
    rewrite !masked_eq_cons. cbn [net.masked_eq].
    repeat (apply (f_equal2 orb); [prefix_arith|]). reflexivity.
Qed.

(** ** The table and the classifier *)

Lemma init_table :
  map (λ b, (net.ParseCIDR b).1.2) maxCidrBlocks = Some <$> reserved_nets.
Proof. vm_compute. reflexivity. Qed.

Lemma after_init_cidrs w : after_init w → cidrs w = Some <$> reserved_nets.
Proof. unfold after_init. rewrite init_table. done. Qed.

(** [init] never panics, fills the table and leaves the requests alone. *)
Lemma init_establishes w :
  ∃ w', init w = Returns tt w' ∧ after_init w' ∧ requests w' = requests w.
Proof. eexists. split; [reflexivity|]. split; reflexivity. Qed.

Lemma isPrivateAddress_loop_nets (nets : list net.IPNet) ip w :
  isPrivateAddress_loop (Some <$> nets) ip w
  = Returns (existsb (λ n, net.Contains n ip) nets, None) w.
Proof.
  induction nets as [|n nets IH]; simpl; [reflexivity|].
  destruct (net.Contains n ip); simpl; [reflexivity|apply IH].
Qed.

Lemma isPrivateAddress_nets (nets : list net.IPNet) address w :
  cidrs w = Some <$> nets →
  isPrivateAddress address w
  = Returns (match net.ParseIP address with
             | None => (false, Some (errors.New "address is not valid"))
             | Some ip => (existsb (λ n, net.Contains n ip) nets, None)
             end) w.
Proof.
  intros Hc. unfold isPrivateAddress.
  destruct (net.ParseIP address) as [ip|]; [|reflexivity].
  unfold mbind, M_bind, read_cidrs. rewrite Hc.
  apply isPrivateAddress_loop_nets.
Qed.

Lemma isPrivateAddress_classify address w :
  after_init w → isPrivateAddress address w = Returns (classify address) w.
Proof.
  intros Hw. rewrite (isPrivateAddress_nets reserved_nets)
    by (by apply after_init_cidrs).
  unfold classify, reserved. by destruct (net.ParseIP address).
Qed.

Lemma is_global_classify address : is_global (classify address) = public address.
Proof.
  unfold is_global, classify, public.
  destruct (net.ParseIP address); simpl; [|reflexivity].
  by rewrite andb_true_r.
Qed.

(** ** First public candidate of a list *)

Lemma find_app_first {A} (f : A → bool) (l1 l2 : list A) :
  List.find f (l1 ++ l2)
  = match List.find f l1 with Some x => Some x | None => List.find f l2 end.
Proof.
  induction l1 as [|x l1 IH]; simpl; [reflexivity|].
  by destruct (f x).
Qed.

Lemma find_first {A} (f : A → bool) (pre post : list A) (x : A) :
  Forall (λ y, f y = false) pre → f x = true →
  List.find f (pre ++ x :: post) = Some x.
Proof.
  intros Hpre Hx. induction Hpre as [|y pre Hy _ IH]; simpl.
  - by rewrite Hx.
  - by rewrite Hy.
Qed.

Lemma find_none {A} (f : A → bool) (l : list A) :
  Forall (λ y, f y = false) l → List.find f l = None.
Proof. induction 1 as [|y l Hy _ IH]; simpl; [done|by rewrite Hy]. Qed.

Lemma find_none_inv {A} (f : A → bool) (l : list A) :
  List.find f l = None → Forall (λ y, f y = false) l.
Proof.
  induction l as [|y l IH]; simpl; [constructor|].
  destruct (f y) eqn:Hy; [done|]. intros H. constructor; auto.
Qed.

Lemma find_some_true {A} (f : A → bool) (l : list A) (x : A) :
  List.find f l = Some x → f x = true.
Proof.
  induction l as [|y l IH]; simpl; [done|].
  destruct (f y) eqn:Hy; [|done]. by intros [= <-].
Qed.

Lemma Forall_false_forallb {A} (f : A → bool) (l : list A) :
  forallb (λ x, negb (f x)) l = true → Forall (λ x, f x = false) l.
Proof.
  induction l as [|x l IH]; simpl; [constructor|].
  intros [Hx Hl]%andb_true_iff. constructor; [|by apply IH].
  by destruct (f x).
Qed.

Lemma Forall_fmap_public (g : string → string) (l : list string) :
  Forall (λ t, public (g t) = false) l →
  Forall (λ a, public a = false) (g <$> l).
Proof. induction 1; simpl; constructor; auto. Qed.

Lemma public_nonempty a : public a = true → a ≠ "".
Proof. intros H ->. vm_compute in H. discriminate. Qed.

(** ** The loops of the resolver *)

(** The loops of the two scans return the first public candidate. *)
Lemma xForwardedFor_inner_find bs w :
  after_init w →
  xForwardedFor_inner bs w
  = Returns (List.find public (strings.TrimSpace <$> bs)) w.
Proof.
  intros Hw. induction bs as [|b bs IH]; simpl; [reflexivity|].
  unfold mbind, M_bind. rewrite isPrivateAddress_classify by done.
  rewrite is_global_classify.
  destruct (public (strings.TrimSpace b)); [reflexivity|apply IH].
Qed.

Lemma xForwardedFor_loop_find xff w :
  after_init w →
  xForwardedFor_loop xff w
  = Returns (List.find public (strings.TrimSpace <$> xff_tokens xff)) w.
Proof.
  intros Hw. induction xff as [|a xff IH]; simpl; [reflexivity|].
  unfold mbind at 1, M_bind. rewrite xForwardedFor_inner_find by done.
  unfold xff_tokens. simpl. rewrite fmap_app, find_app_first.
  destruct (List.find public (strings.TrimSpace <$> strings.Split a ","));
    [reflexivity|apply IH].
Qed.

Lemma forwarded_inner_find bs w :
  after_init w →
  forwarded_inner bs w = Returns (List.find public (omap piece_candidate bs)) w.
Proof.
  intros Hw. induction bs as [|b bs IH]; simpl; [reflexivity|].
  unfold piece_candidate at 1.
  destruct (strings.Contains b "for"); [|apply IH].
  destruct (strings.Split b "=") as [|c0 [|c1 [|c2 cs]]]; try apply IH.
  unfold mbind, M_bind. rewrite isPrivateAddress_classify by done.
  rewrite is_global_classify. fold (strip_for_value c1). simpl.
  destruct (public (strip_for_value c1)); [reflexivity|apply IH].
Qed.

Lemma forwarded_loop_find groups w :
  after_init w →
  forwarded_loop groups w
  = Returns (List.find public
               (omap piece_candidate (a ← groups; strings.Split a ","))) w.
Proof.
  intros Hw. induction groups as [|a groups IH]; simpl; [reflexivity|].
  unfold mbind at 1, M_bind. rewrite forwarded_inner_find by done.
  rewrite omap_app, find_app_first.
  destruct (List.find public (omap piece_candidate (strings.Split a ",")));
    [reflexivity|apply IH].
Qed.

Lemma FromRequest_resolve w r req :
  after_init w → requests w !! r = Some req →
  FromRequest r w = Returns (resolve req) w.
Proof.
  intros Hw Hr. unfold FromRequest, resolve, all_absent.
  unfold mbind at 1, M_bind at 1, load. rewrite Hr.
  fold (xRealIP_of req) (xForwardedFor_of req) (forwarded_of req).
  destruct (String.eqb (xRealIP_of req) "" && (length (xForwardedFor_of req) =? 0)%nat
            && String.eqb (forwarded_of req) "").
  - unfold remote_host.
    destruct (strings.ContainsRune (http.RemoteAddr req) ":"); [|reflexivity].
    by destruct (net.SplitHostPort (http.RemoteAddr req)) as [[h p] e].
  - unfold mbind at 1, M_bind at 1. rewrite xForwardedFor_loop_find by done.
    destruct (List.find public _) as [a|]; [reflexivity|].
    unfold mbind, M_bind. rewrite forwarded_loop_find by done.
    fold (forwarded_pieces (forwarded_of req)).
    fold (forwarded_candidates (forwarded_of req)).
    by destruct (List.find public _).
Qed.

(** The all-absent path does not read the table. *)
Lemma FromRequest_all_absent w r req :
  requests w !! r = Some req → all_absent req = true →
  FromRequest r w = Returns (remote_host (http.RemoteAddr req)) w.
Proof.
  intros Hr Ha. unfold FromRequest.
  unfold mbind at 1, M_bind at 1, load. rewrite Hr.
  fold (xRealIP_of req) (xForwardedFor_of req) (forwarded_of req).
  unfold all_absent in Ha. rewrite Ha. unfold remote_host.
  destruct (strings.ContainsRune (http.RemoteAddr req) ":"); [|reflexivity].
  by destruct (net.SplitHostPort (http.RemoteAddr req)) as [[h p] e].
Qed.

Lemma all_absent_xff req : xForwardedFor_of req ≠ [] → all_absent req = false.
Proof.
  intros H. unfold all_absent.
  destruct (xForwardedFor_of req); [done|]. simpl. by rewrite andb_false_r.
Qed.

Lemma all_absent_forwarded req : forwarded_of req ≠ "" → all_absent req = false.
Proof.
  intros H. unfold all_absent.
  destruct (String.eqb_spec (forwarded_of req) ""); [done|].
  by rewrite andb_false_r.
Qed.

(** ** The tables of [realip_test.go] *)

Example init_world req :
  init (world_before_init req) = Returns tt (world_with req).
Proof. reflexivity. Qed.

(** [TestIsPrivateAddr] *)
Example TestIsPrivateAddr :
  (λ addr, returned (isPrivateAddress addr (world_with req_remote_port)))
    <$> [ "127.0.0.0"; "10.0.0.0"; "169.254.0.0"; "192.168.0.0"; "::1";
          "fc00::"; "172.15.0.0"; "172.16.0.0"; "172.31.0.0"; "172.32.0.0";
          "147.12.56.11" ]
  = [ Some (true, None); Some (true, None); Some (true, None);
      Some (true, None); Some (true, None); Some (true, None);
      Some (false, None); Some (true, None); Some (true, None);
      Some (false, None); Some (false, None) ].
Proof. vm_compute. reflexivity. Qed.

(** [TestRealIP] *)
Example TestRealIP :
  (λ req, returned (FromRequest 1%positive (world_with req)))
    <$> [ newRequest "13.182.55.11:8080" "" false [];
          newRequest "144.12.54.87" "" false [];
          newRequest "" "" false ["144.12.54.87"];
          newRequest "" "" false ["127.0.0.0,144.12.54.87"];
          newRequest "" "" false ["127.0.0.0, 144.12.54.87"];
          newRequest "" "" false ["127.0.0.0"; "144.12.54.87"; "119.14.55.11"];
          newRequest "" "" false ["127.0.0.0"; "144.12.54.87,119.14.55.11"];
          newRequest "" "" false ["144.12.54.87"];
          newRequest "" "" true ["for=144.12.54.87"];
          newRequest "" "" true ["for=127.0.0.0,for=144.12.54.87"];
          newRequest "" "" true ["for=127.0.0.0, for=119.14.55.11"] ]
  = [ Some "13.182.55.11"; Some "144.12.54.87"; Some "144.12.54.87";
      Some "144.12.54.87"; Some "144.12.54.87"; Some "144.12.54.87";
      Some "144.12.54.87"; Some "144.12.54.87"; Some "144.12.54.87";
      Some "144.12.54.87"; Some "119.14.55.11" ].
Proof. vm_compute. reflexivity. Qed.

(** * The claims *)

(** C1: when X-Forwarded-For has one or more values, the tokens are scanned
    in the order of the header occurrences and, within a value, from left to
    right between the commas; each token is trimmed of white space and
    classified, and the resolver returns the first trimmed token that parses
    as an IP address and is in no reserved block. *)
Theorem C1_forwarded_for_first_public (w : World) (r : loc)
    (req : http.Request) (pre post : list string) (tok : string) :
  after_init w → requests w !! r = Some req →
  xForwardedFor_of req ≠ [] →
  xff_tokens (xForwardedFor_of req) = pre ++ tok :: post →
  Forall (λ t, public (strings.TrimSpace t) = false) pre →
  public (strings.TrimSpace tok) = true →
  FromRequest r w = Returns (strings.TrimSpace tok) w.
Proof.
  intros Hw Hr Hne Htok Hpre Hpub.
  rewrite (FromRequest_resolve w r req) by done.
  unfold resolve. rewrite all_absent_xff by done.
  rewrite Htok, fmap_app, fmap_cons.
  rewrite find_first; [done| |done].
  by apply Forall_fmap_public.
Qed.

Lemma C1_witness :
  FromRequest 1%positive (world_with req_xff_chain)
  = Returns "144.12.54.87" (world_with req_xff_chain).
Proof.
  apply (C1_forwarded_for_first_public (world_with req_xff_chain) 1%positive
           req_xff_chain ["127.0.0.0"; " 10.1.2.3"] ["8.8.8.8"] "144.12.54.87").
  - reflexivity.
  - reflexivity.
  - vm_compute. discriminate.
  - vm_compute. reflexivity.
  - repeat constructor.
  - vm_compute. reflexivity.
Defined.

(** C2: a parseable address inside one of 127.0.0.0/8, 10.0.0.0/8,
    172.16.0.0/12, 192.168.0.0/16, 169.254.0.0/16, ::1/128, fc00::/7 and
    fe80::/10 is classified as reserved, and one outside all of them is
    not; 172.16.0.0 and 172.31.0.0, the edges of the /12 block, are
    reserved, 172.15.0.0 and 172.32.0.0 are not.  An address counts in the
    family of its parsed form: an IPv4-mapped IPv6 literal parses to the
    same bytes as the IPv4 address it holds. *)
Theorem C2_reserved_prefixes (w : World) (address : string) (ip : net.IP) :
  after_init w → net.ParseIP address = Some ip →
  isPrivateAddress address w = Returns (in_reserved_prefix ip, None) w
  ∧ isPrivateAddress "172.16.0.0" w = Returns (true, None) w
  ∧ isPrivateAddress "172.31.0.0" w = Returns (true, None) w
  ∧ isPrivateAddress "172.15.0.0" w = Returns (false, None) w
  ∧ isPrivateAddress "172.32.0.0" w = Returns (false, None) w.
Proof.
  intros Hw Hp. rewrite !isPrivateAddress_classify by done.
  split; [|by repeat split].
  unfold classify. rewrite Hp.
  by rewrite (reserved_in_prefix ip) by (by eapply ParseIP_wf).
Qed.

Lemma C2_witness :
  isPrivateAddress "fe80::1ff:fe23:4567:890a" (world_with req_real_ip)
  = Returns (true, None) (world_with req_real_ip)
  ∧ isPrivateAddress "172.16.0.0" (world_with req_real_ip)
    = Returns (true, None) (world_with req_real_ip)
  ∧ isPrivateAddress "172.31.0.0" (world_with req_real_ip)
    = Returns (true, None) (world_with req_real_ip)
  ∧ isPrivateAddress "172.15.0.0" (world_with req_real_ip)
    = Returns (false, None) (world_with req_real_ip)
  ∧ isPrivateAddress "172.32.0.0" (world_with req_real_ip)
    = Returns (false, None) (world_with req_real_ip).
Proof.
  apply (C2_reserved_prefixes (world_with req_real_ip)
           "fe80::1ff:fe23:4567:890a"
           [254; 128; 0; 0; 0; 0; 0; 0; 1; 255; 254; 35; 69; 103; 137; 10]%Z).
  - reflexivity.
  - vm_compute. reflexivity.
Defined.

(** C3, as the code has it: when the scan of X-Forwarded-For yields no
    public address and Forwarded is not empty, the value is cut at [;] and
    then at [,]; a piece that contains [for] and splits at [=] into exactly
    two parts offers its second part, trimmed of white space, then of every
    leading quote or opening bracket and of every trailing closing bracket
    or quote; the resolver returns the first such address that parses and
    is in no reserved block. *)
Theorem C3_forwarded_first_public (w : World) (r : loc) (req : http.Request)
    (pre post : list string) (address : string) :
  after_init w → requests w !! r = Some req →
  forwarded_of req ≠ "" →
  Forall (λ t, public (strings.TrimSpace t) = false)
    (xff_tokens (xForwardedFor_of req)) →
  forwarded_candidates (forwarded_of req) = pre ++ address :: post →
  Forall (λ a, public a = false) pre →
  public address = true →
  FromRequest r w = Returns address w.
Proof.
  intros Hw Hr Hne Hxff Hc Hpre Hpub.
  rewrite (FromRequest_resolve w r req) by done.
  unfold resolve. rewrite all_absent_forwarded by done.
  rewrite find_none by (by apply Forall_fmap_public).
  rewrite Hc, find_first; done.
Qed.

Lemma C3_witness :
  FromRequest 1%positive (world_with req_forwarded_quoted)
  = Returns "2001:db8::1" (world_with req_forwarded_quoted).
Proof.
  apply (C3_forwarded_first_public (world_with req_forwarded_quoted) 1%positive
           req_forwarded_quoted ["192.168.1.1"] [] "2001:db8::1").
  - reflexivity.
  - reflexivity.
  - vm_compute. discriminate.
  - apply Forall_false_forallb. vm_compute. reflexivity.
  - vm_compute. reflexivity.
  - repeat constructor.
  - vm_compute. reflexivity.
Defined.

(** C3 fails as it is written, with one layer stripped: for
    [Forwarded: for=[[2001:db8::1]],for=9.9.9.9] the first candidate would
    be [[2001:db8::1]], which does not parse, and the first public candidate
    would be 9.9.9.9; the code removes both brackets and returns
    2001:db8::1. *)
Lemma C3_counterexample :
  forwarded_of req_forwarded_two_layers ≠ ""
  ∧ xff_tokens (xForwardedFor_of req_forwarded_two_layers) = []
  ∧ forwarded_candidates_one_layer (forwarded_of req_forwarded_two_layers)
    = ["[2001:db8::1]"; "9.9.9.9"]
  ∧ public "[2001:db8::1]" = false
  ∧ public "9.9.9.9" = true
  ∧ FromRequest 1%positive (world_with req_forwarded_two_layers)
    = Returns "2001:db8::1" (world_with req_forwarded_two_layers)
  ∧ FromRequest 1%positive (world_with req_forwarded_two_layers)
    ≠ Returns "9.9.9.9" (world_with req_forwarded_two_layers).
Proof.
  split; [vm_compute; discriminate|].
  repeat split; try (vm_compute; reflexivity).
  vm_compute. discriminate.
Qed.

(** C4, as the code has it: when X-Real-IP is empty, X-Forwarded-For has no
    value and Forwarded is empty, the resolver returns the remote address
    as it is when it has no colon; for [host:port], host and port without
    colon and brackets, it returns the host, which is the part before the
    last colon; for [[host]:port] it returns the host without the
    brackets. *)
Theorem C4_remote_address_fallback (w : World) (r : loc) (req : http.Request) :
  requests w !! r = Some req → all_absent req = true →
  (IndexByteString (http.RemoteAddr req) ":" = None →
   FromRequest r w = Returns (http.RemoteAddr req) w)
  ∧ (∀ host port,
       http.RemoteAddr req = host +:+ String ":" port →
       plain host → plain port →
       FromRequest r w = Returns host w
       ∧ cut_at_last_colon (http.RemoteAddr req) = host)
  ∧ (∀ host port,
       http.RemoteAddr req = String "[" (host +:+ String "]" (String ":" port)) →
       IndexByteString host "[" = None → IndexByteString host "]" = None →
       plain port →
       FromRequest r w = Returns host w).
Proof.
  intros Hr Ha. rewrite (FromRequest_all_absent w r req) by done.
  unfold remote_host. split; [|split].
  - intros Hc. unfold strings.ContainsRune. rewrite Hc.
    by rewrite bool_decide_eq_false_2 by (by intros [? ?]).
  - intros host port -> (Hhc & Hho & Hhb) (Hpc & Hpo & Hpb).
    rewrite ContainsRune_app, SplitHostPort_plain by done.
    split; [done|]. by apply cut_at_last_colon_app.
  - intros host port -> Hho Hhb (Hpc & Hpo & Hpb).
    rewrite ContainsRune_bracketed, SplitHostPort_bracketed by done. done.
Qed.

Lemma C4_witness :
  FromRequest 1%positive (world_with req_remote_port)
  = Returns "13.182.55.11" (world_with req_remote_port)
  ∧ cut_at_last_colon (http.RemoteAddr req_remote_port) = "13.182.55.11".
Proof.
  destruct (C4_remote_address_fallback (world_with req_remote_port) 1%positive
              req_remote_port) as (_ & H & _).
  - reflexivity.
  - reflexivity.
  - apply (H "13.182.55.11" "8080"); [reflexivity| |]; repeat split.
Defined.

(** C4 fails as it is written: with no header and the remote address
    [[2001:db8::1]:443], the part before the last colon is [[2001:db8::1]],
    with its brackets; the resolver returns 2001:db8::1. *)
Lemma C4_counterexample :
  all_absent req_remote_bracketed = true
  ∧ cut_at_last_colon (http.RemoteAddr req_remote_bracketed) = "[2001:db8::1]"
  ∧ FromRequest 1%positive (world_with req_remote_bracketed)
    = Returns "2001:db8::1" (world_with req_remote_bracketed)
  ∧ FromRequest 1%positive (world_with req_remote_bracketed)
    ≠ Returns (cut_at_last_colon (http.RemoteAddr req_remote_bracketed))
        (world_with req_remote_bracketed).
Proof.
  repeat split; try (vm_compute; reflexivity).
  vm_compute. discriminate.
Qed.

(** C5, as the code has it: when the resolver returns the empty string,
    X-Real-IP is absent or empty, and either no header is present and the
    remote address is empty or has a colon and no host under the host:port
    reading, or some forwarding header is present and neither scan finds a
    public address. *)
Theorem C5_empty_result (w : World) (r : loc) (req : http.Request) :
  after_init w → requests w !! r = Some req →
  FromRequest r w = Returns "" w →
  xRealIP_of req = ""
  ∧ ((xForwardedFor_of req = [] ∧ forwarded_of req = ""
      ∧ (http.RemoteAddr req = ""
         ∨ (strings.ContainsRune (http.RemoteAddr req) ":" = true
            ∧ (net.SplitHostPort (http.RemoteAddr req)).1.1 = "")))
     ∨ ((xForwardedFor_of req ≠ [] ∨ forwarded_of req ≠ "")
        ∧ Forall (λ t, public (strings.TrimSpace t) = false)
            (xff_tokens (xForwardedFor_of req))
        ∧ Forall (λ a, public a = false)
            (forwarded_candidates (forwarded_of req)))).
Proof.
  intros Hw Hr. rewrite (FromRequest_resolve w r req) by done.
  intros [= Hres]. unfold resolve in Hres.
  destruct (all_absent req) eqn:Ha.
  - unfold all_absent in Ha.
    apply andb_true_iff in Ha as [Ha Hf]. apply andb_true_iff in Ha as [Hx Hl].
    apply String.eqb_eq in Hx, Hf. apply Nat.eqb_eq in Hl.
    split; [done|]. left.
    split; [by destruct (xForwardedFor_of req)|]. split; [done|].
    unfold remote_host in Hres.
    destruct (strings.ContainsRune (http.RemoteAddr req) ":"); auto.
  - destruct (List.find public _) as [a|] eqn:Hxff in Hres.
    { subst a. apply find_some_true in Hxff. by apply public_nonempty in Hxff. }
    destruct (List.find public _) as [a|] eqn:Hfwd in Hres.
    { subst a. apply find_some_true in Hfwd. by apply public_nonempty in Hfwd. }
    split; [done|]. right. split.
    + unfold all_absent in Ha. rewrite Hres in Ha. simpl in Ha.
      destruct (xForwardedFor_of req); [right|left; done].
      simpl in Ha. intros Hf. by rewrite Hf in Ha.
    + split; [|by apply find_none_inv].
      apply find_none_inv in Hxff. clear -Hxff.
      induction (xff_tokens (xForwardedFor_of req)); simpl in *; [constructor|].
      inversion Hxff; subst. constructor; auto.
Qed.

Lemma C5_witness :
  xRealIP_of req_xff_private = ""
  ∧ ((xForwardedFor_of req_xff_private = [] ∧ forwarded_of req_xff_private = ""
      ∧ (http.RemoteAddr req_xff_private = ""
         ∨ (strings.ContainsRune (http.RemoteAddr req_xff_private) ":" = true
            ∧ (net.SplitHostPort (http.RemoteAddr req_xff_private)).1.1 = "")))
     ∨ ((xForwardedFor_of req_xff_private ≠ []
         ∨ forwarded_of req_xff_private ≠ "")
        ∧ Forall (λ t, public (strings.TrimSpace t) = false)
            (xff_tokens (xForwardedFor_of req_xff_private))
        ∧ Forall (λ a, public a = false)
            (forwarded_candidates (forwarded_of req_xff_private)))).
Proof.
  apply (C5_empty_result (world_with req_xff_private) 1%positive
           req_xff_private).
  - reflexivity.
  - reflexivity.
  - vm_compute. reflexivity.
Defined.

(** C5 fails as it is written: with X-Forwarded-For: 10.0.0.1 as the only
    header and the remote address 203.0.113.7:4711, the resolver returns
    the empty string although a header source is present and the remote
    address is not empty. *)
Lemma C5_counterexample :
  FromRequest 1%positive (world_with req_xff_private)
  = Returns "" (world_with req_xff_private)
  ∧ xForwardedFor_of req_xff_private = ["10.0.0.1"]
  ∧ http.RemoteAddr req_xff_private = "203.0.113.7:4711".
Proof. repeat split; vm_compute; reflexivity. Qed.

(** C6: [isPrivateAddress] returns [false] with an error when the string
    does not parse as an IP address; when it parses, there is no error and
    the result is [true] exactly when a block of the table contains the
    address. *)
Theorem C6_isPrivateAddress_result (nets : list net.IPNet) (w : World)
    (address : string) :
  cidrs w = Some <$> nets →
  (net.ParseIP address = None →
   isPrivateAddress address w
   = Returns (false, Some (errors.New "address is not valid")) w)
  ∧ (∀ ip, net.ParseIP address = Some ip →
       ∃ isPrivate,
         isPrivateAddress address w = Returns (isPrivate, None) w
         ∧ (isPrivate = true ↔ ∃ n, n ∈ nets ∧ net.Contains n ip = true)).
Proof.
  intros Hc. rewrite (isPrivateAddress_nets nets) by done. split.
  - by intros ->.
  - intros ip ->. eexists. split; [reflexivity|].
    rewrite existsb_exists. setoid_rewrite <- list_elem_of_In. done.
Qed.

Lemma C6_witness :
  (net.ParseIP "unknown" = None →
   isPrivateAddress "unknown" (world_with req_real_ip)
   = Returns (false, Some (errors.New "address is not valid"))
       (world_with req_real_ip))
  ∧ (∀ ip, net.ParseIP "unknown" = Some ip →
       ∃ isPrivate,
         isPrivateAddress "unknown" (world_with req_real_ip)
         = Returns (isPrivate, None) (world_with req_real_ip)
         ∧ (isPrivate = true
            ↔ ∃ n, n ∈ reserved_nets ∧ net.Contains n ip = true)).
Proof.
  apply (C6_isPrivateAddress_result reserved_nets (world_with req_real_ip)
           "unknown").
  vm_compute. reflexivity.
Defined.

(** C7: when some header is present and neither the scan of
    X-Forwarded-For nor the scan of Forwarded yields a public address, the
    resolver returns the value of X-Real-IP as it is, the empty string when
    that header is absent. *)
Theorem C7_real_ip_fallback (w : World) (r : loc) (req : http.Request) :
  after_init w → requests w !! r = Some req →
  all_absent req = false →
  Forall (λ t, public (strings.TrimSpace t) = false)
    (xff_tokens (xForwardedFor_of req)) →
  Forall (λ a, public a = false) (forwarded_candidates (forwarded_of req)) →
  FromRequest r w = Returns (xRealIP_of req) w.
Proof.
  intros Hw Hr Ha Hxff Hfwd.
  rewrite (FromRequest_resolve w r req) by done.
  unfold resolve. rewrite Ha.
  rewrite find_none by (by apply Forall_fmap_public).
  by rewrite find_none.
Qed.

Lemma C7_witness :
  FromRequest 1%positive (world_with req_real_ip)
  = Returns "198.51.100.4" (world_with req_real_ip)
  ∧ FromRequest 1%positive (world_with req_xff_private)
    = Returns "" (world_with req_xff_private).
Proof.
  split.
  - apply (C7_real_ip_fallback (world_with req_real_ip) 1%positive req_real_ip).
    + reflexivity.
    + reflexivity.
    + reflexivity.
    + apply Forall_false_forallb. vm_compute. reflexivity.
    + apply Forall_false_forallb. vm_compute. reflexivity.
  - apply (C7_real_ip_fallback (world_with req_xff_private) 1%positive
             req_xff_private).
    + reflexivity.
    + reflexivity.
    + reflexivity.
    + apply Forall_false_forallb. vm_compute. reflexivity.
    + apply Forall_false_forallb. vm_compute. reflexivity.
Defined.

(** C8: on an initialised table and an allocated request the resolver
    returns a string and does not panic; a token of X-Forwarded-For or a
    value of Forwarded that fails to parse, and a piece of Forwarded that
    offers no address, are passed over and the scan goes on with the next
    one. *)
Theorem C8_no_error_escapes (w : World) (r : loc) (req : http.Request) :
  after_init w → requests w !! r = Some req →
  (∃ s, FromRequest r w = Returns s w)
  ∧ (∀ b bs, net.ParseIP (strings.TrimSpace b) = None →
       xForwardedFor_inner (b :: bs) w = xForwardedFor_inner bs w)
  ∧ (∀ b bs, piece_candidate b = None →
       forwarded_inner (b :: bs) w = forwarded_inner bs w)
  ∧ (∀ b bs address, piece_candidate b = Some address →
       net.ParseIP address = None →
       forwarded_inner (b :: bs) w = forwarded_inner bs w)
  ∧ (∀ a rest, xForwardedFor_inner (strings.Split a ",") w = Returns None w →
       xForwardedFor_loop (a :: rest) w = xForwardedFor_loop rest w)
  ∧ (∀ a rest, forwarded_inner (strings.Split a ",") w = Returns None w →
       forwarded_loop (a :: rest) w = forwarded_loop rest w).
Proof.
  intros Hw Hr. split; [|split; [|split; [|split; [|split]]]].
  - exists (resolve req). by apply FromRequest_resolve.
  - intros b bs Hp. rewrite !xForwardedFor_inner_find by done. simpl.
    unfold public at 1. by rewrite Hp.
  - intros b bs Hp. rewrite !forwarded_inner_find by done. simpl.
    by rewrite Hp.
  - intros b bs address Hc Hp. rewrite !forwarded_inner_find by done. simpl.
    rewrite Hc. simpl. unfold public at 1. by rewrite Hp.
  - intros a rest Hin. simpl. unfold mbind, M_bind. by rewrite Hin.
  - intros a rest Hin. simpl. unfold mbind, M_bind. by rewrite Hin.
Qed.

Lemma C8_witness :
  (∃ s, FromRequest 1%positive (world_with req_real_ip)
        = Returns s (world_with req_real_ip))
  ∧ xForwardedFor_inner [" unknown"; "8.8.8.8"] (world_with req_real_ip)
    = xForwardedFor_inner ["8.8.8.8"] (world_with req_real_ip).
Proof.
  destruct (C8_no_error_escapes (world_with req_real_ip) 1%positive req_real_ip)
    as (Hret & Hxff & _).
  - reflexivity.
  - reflexivity.
  - split; [exact Hret|]. apply Hxff. vm_compute. reflexivity.
Defined.

(** C9: two calls on requests with the same values of the three headers
    and the same remote address return the same string, whatever else the
    requests hold, and each call leaves the state as it found it: neither
    the table [cidrs] nor any request is changed.  A second call after the
    first returns the same string again. *)
Theorem C9_deterministic_no_mutation (w1 w2 : World) (r1 r2 : loc)
    (req1 req2 : http.Request) :
  after_init w1 → after_init w2 →
  requests w1 !! r1 = Some req1 → requests w2 !! r2 = Some req2 →
  xRealIP_of req1 = xRealIP_of req2 →
  xForwardedFor_of req1 = xForwardedFor_of req2 →
  forwarded_of req1 = forwarded_of req2 →
  http.RemoteAddr req1 = http.RemoteAddr req2 →
  ∃ s,
    FromRequest r1 w1 = Returns s w1
    ∧ FromRequest r2 w2 = Returns s w2
    ∧ (s1 ← FromRequest r1; s2 ← FromRequest r1; mret (s1, s2)) w1
      = Returns (s, s) w1.
Proof.
  intros Hw1 Hw2 Hr1 Hr2 Hx Hf Hfw Ha.
  exists (resolve req1). split; [by apply FromRequest_resolve|]. split.
  - rewrite (FromRequest_resolve w2 r2 req2) by done.
    unfold resolve, all_absent. by rewrite Hx, Hf, Hfw, Ha.
  - unfold mbind, M_bind.
    by rewrite !(FromRequest_resolve w1 r1 req1) by done.
Qed.

Lemma C9_witness :
  ∃ s,
    FromRequest 1%positive (world_with req_real_ip)
    = Returns s (world_with req_real_ip)
    ∧ FromRequest 1%positive (world_with req_real_ip_extra)
      = Returns s (world_with req_real_ip_extra)
    ∧ (s1 ← FromRequest 1%positive; s2 ← FromRequest 1%positive; mret (s1, s2))
        (world_with req_real_ip)
      = Returns (s, s) (world_with req_real_ip).
Proof.
  apply (C9_deterministic_no_mutation (world_with req_real_ip)
           (world_with req_real_ip_extra) 1%positive 1%positive
           req_real_ip req_real_ip_extra); vm_compute; reflexivity.
Defined.

(** C10: with no header present and a colon in the remote address, the
    host is the one of [net.SplitHostPort], not the part before the last
    colon: for [[2001:db8::1]:443] it is 2001:db8::1, without the brackets,
    and when the remote address is no valid host:port form, as the bare
    ::1, the error is dropped and the result is the empty string. *)
Theorem C10_remote_host_port (w : World) (r : loc) (req : http.Request) :
  requests w !! r = Some req → all_absent req = true →
  strings.ContainsRune (http.RemoteAddr req) ":" = true →
  (∀ host port,
     net.SplitHostPort (http.RemoteAddr req) = (host, port, None) →
     FromRequest r w = Returns host w)
  ∧ (∀ host port e,
       net.SplitHostPort (http.RemoteAddr req) = (host, port, Some e) →
       FromRequest r w = Returns "" w)
  ∧ (http.RemoteAddr req = "[2001:db8::1]:443" →
     FromRequest r w = Returns "2001:db8::1" w
     ∧ cut_at_last_colon (http.RemoteAddr req) = "[2001:db8::1]")
  ∧ (http.RemoteAddr req = "::1" →
     FromRequest r w = Returns "" w
     ∧ cut_at_last_colon (http.RemoteAddr req) = ":").
Proof.
  intros Hr Ha Hc. rewrite (FromRequest_all_absent w r req) by done.
  unfold remote_host. rewrite Hc.
  split; [|split; [|split]].
  - by intros host port ->.
  - intros host port e Hs. rewrite Hs. simpl.
    by rewrite (SplitHostPort_error_host _ _ _ _ Hs).
  - intros ->. split; reflexivity.
  - intros ->. split; reflexivity.
Qed.

Lemma C10_witness :
  FromRequest 1%positive (world_with req_remote_bracketed)
  = Returns "2001:db8::1" (world_with req_remote_bracketed)
  ∧ cut_at_last_colon (http.RemoteAddr req_remote_bracketed) = "[2001:db8::1]".
Proof.
  destruct (C10_remote_host_port (world_with req_remote_bracketed) 1%positive
              req_remote_bracketed) as (_ & _ & H & _).
  - reflexivity.
  - reflexivity.
  - reflexivity.
  - apply H. reflexivity.
Defined.

(** * Further properties of the code *)

(** ** Lemmas *)

Lemma all_bytes_app P s t :
  all_bytes P (s +:+ t) = all_bytes P s && all_bytes P t.
Proof.
  induction s as [|c s IH]; [done|].
  rewrite app_String. simpl. by rewrite IH, andb_assoc.
Qed.

Lemma slice_to_from n : ∀ s, s = slice_to n s +:+ slice_from n s.
Proof.
  induction n as [|n IH]; intros [|c s]; simpl; try done.
  rewrite app_String. by rewrite <- IH.
Qed.

Lemma eqb_length_0 s : (String.length s =? 0) = true → s = "".
Proof. by destruct s. Qed.

Lemma byte_at_colon s : byte_at s 0 = 58%Z → s = String ":" (slice_from 1 s).
Proof.
  destruct s as [|c s]; [done|]. rewrite byte_at_0_String.
  intros H. by rewrite (code_inj c ":" H).
Qed.

Lemma ip_char_colon : ip_char ":" = true.
Proof. reflexivity. Qed.

Lemma all_bytes_impl (P Q : ascii → bool) s :
  (∀ c, P c = true → Q c = true) → all_bytes P s = true → all_bytes Q s = true.
Proof.
  intros HPQ. induction s as [|c s IH]; simpl; [done|].
  intros [Hc Hs]%andb_true_iff. by rewrite (HPQ c Hc), IH.
Qed.

Lemma v4_char_ip_char c : v4_char c = true → ip_char c = true.
Proof.
  unfold v4_char, ip_char. cbv zeta.
  intros [-> | ->]%orb_true_iff; [done|]. by rewrite !orb_true_r.
Qed.

Lemma parseIPv4_loop_bytes rest : ∀ s i fields val pos digLen res,
  netip.parseIPv4_loop s rest i fields val pos digLen = Some res →
  all_bytes v4_char rest = true.
Proof.
  induction rest as [|c rest IH]; intros s i fields val pos digLen res;
    simpl; [done|].
  unfold v4_char at 1.
  destruct ((48 <=? code c)%Z && (code c <=? 57)%Z) eqn:Hd.
  - repeat case_match; try done. simpl. by eapply IH.
  - destruct (code c =? 46)%Z eqn:Hdot; [|done].
    repeat case_match; try done. simpl. by eapply IH.
Qed.

Lemma parseIPv4_fields_bytes s fields :
  netip.parseIPv4_fields s = Some fields → all_bytes v4_char s = true.
Proof.
  unfold netip.parseIPv4_fields.
  destruct (netip.parseIPv4_loop _ _ _ _ _ _ _) as [res|] eqn:Hl; [|done].
  intros _. by eapply parseIPv4_loop_bytes.
Qed.

Lemma hex_group_bytes s : ∀ off acc off' acc',
  netip.hex_group s off acc = Some (off', acc') →
  ∃ n, off' = off + n ∧ all_bytes ip_char (slice_to n s) = true.
Proof.
  induction s as [|c s IH]; intros off acc off' acc'; simpl.
  - intros [= <- <-]. exists 0. by rewrite Nat.add_0_r.
  - destruct (if (48 <=? code c)%Z && (code c <=? 57)%Z then _ else _)
      as [d|] eqn:Hd.
    + repeat case_match; try done; simplify_eq; intros (n & -> & Hn)%IH;
        exists (S n); (split; [lia|]); simpl; rewrite Hn, andb_true_r;
        unfold ip_char;
        repeat match goal with H : _ = true |- _ => rewrite H end;
        by rewrite ?orb_true_r.
    + intros [= <- <-]. exists 0. by rewrite Nat.add_0_r.
Qed.

Lemma parseIPv6_finish_empty s ip i ellipsis ip' :
  netip.parseIPv6_finish s ip i ellipsis = Some ip' → s = "".
Proof.
  unfold netip.parseIPv6_finish.
  destruct (String.length s =? 0) eqn:Hs; [|done].
  intros _. by apply eqb_length_0.
Qed.

Lemma parseIPv6_loop_bytes fuel : ∀ s ip i ellipsis ip',
  netip.parseIPv6_loop fuel s ip i ellipsis = Some ip' →
  all_bytes ip_char s = true.
Proof.
  induction fuel as [|fuel IH]; intros s ip i ellipsis ip'; simpl.
  { by intros ->%parseIPv6_finish_empty. }
  destruct (negb (i <? 16)); [by intros ->%parseIPv6_finish_empty|].
  destruct (netip.hex_group s 0 0) as [[off acc]|] eqn:Hh; [|done].
  apply hex_group_bytes in Hh as (n & -> & Hn). simpl.
  destruct (n =? 0); [done|].
  destruct ((n <? String.length s) && (byte_at s n =? 46)%Z).
  { repeat case_match; try done. intros _.
    eapply all_bytes_impl; [apply v4_char_ip_char|].
    by eapply parseIPv4_fields_bytes. }
  rewrite (slice_to_from n s), all_bytes_app, Hn. simpl.
  rewrite <- (slice_to_from n s).
  set (s1 := slice_from n s).
  destruct (String.length s1 =? 0) eqn:H1.
  { by intros ->%parseIPv6_finish_empty. }
  destruct (Z.eqb_spec (byte_at s1 0) 58) as [Hc|]; [|done]. simpl.
  destruct (String.length s1 =? 1); [done|].
  rewrite (byte_at_colon s1 Hc). simpl.
  set (s2 := match s1 with "" => "" | String _ s' => s' end).
  destruct (Z.eqb_spec (byte_at s2 0) 58) as [Hc2|]; [|by apply IH].
  destruct ellipsis; [done|].
  rewrite (byte_at_colon s2 Hc2). simpl.
  set (s3 := match s2 with "" => "" | String _ s' => s' end).
  destruct (String.length s3 =? 0); [by intros ->%parseIPv6_finish_empty|].
  by apply IH.
Qed.

Lemma parseIPv6_bytes s a :
  netip.parseIPv6 s = Some a → netip.Zone a = "" → all_bytes ip_char s = true.
Proof.
  unfold netip.parseIPv6.
  destruct (IndexByteString s "%") as [j|] eqn:Hz.
  - (* a zone: the result has it *)
    destruct (String.eqb_spec (slice_from (S j) s) "") as [|Hne]; [done|].
    assert (∀ b, netip.z b ≠ netip.z4 → netip.Zone (netip.WithZone b (slice_from (S j) s)) ≠ "") as HZ.
    { intros b Hb. unfold netip.Zone, netip.WithZone.
      destruct (netip.z b) eqn:Hzb; try done;
        by destruct (String.eqb_spec (slice_from (S j) s) ""). }
    repeat case_match; try done.
    + intros [= <-] Hzone. by apply HZ in Hzone.
    + intros (ip & _ & ->)%fmap_Some Hzone. by apply HZ in Hzone.
    + intros (ip & _ & ->)%fmap_Some Hzone. by apply HZ in Hzone.
  - destruct ((2 <=? String.length s) && (byte_at s 0 =? 58)%Z
              && (byte_at s 1 =? 58)%Z) eqn:Hlead.
    + apply andb_true_iff in Hlead as [[Hl H0]%andb_true_iff H1].
      apply Z.eqb_eq in H0, H1.
      destruct s as [|c [|d s]]; try done.
      apply (code_inj c ":") in H0. apply (code_inj d ":") in H1. subst c d.
      change (slice_from 2 (String ":" (String ":" s))) with s.
      change (all_bytes ip_char (String ":" (String ":" s)))
        with (all_bytes ip_char s).
      destruct (String.length s =? 0) eqn:He.
      * by rewrite (eqb_length_0 _ He).
      * intros (ip & Hip & _)%fmap_Some _. by eapply parseIPv6_loop_bytes.
    + intros (ip & Hip & _)%fmap_Some _. by eapply parseIPv6_loop_bytes.
Qed.

Lemma ParseAddr_scan_bytes rest s a :
  netip.ParseAddr_scan s rest = Some a → netip.Zone a = "" →
  all_bytes ip_char s = true.
Proof.
  induction rest as [|c rest IH]; simpl; [done|].
  repeat case_match; try done.
  - unfold netip.parseIPv4. intros (f & Hf & _)%fmap_Some _.
    eapply all_bytes_impl; [apply v4_char_ip_char|].
    by eapply parseIPv4_fields_bytes.
  - apply parseIPv6_bytes.
Qed.

Lemma ParseIP_bytes s ip : net.ParseIP s = Some ip → all_bytes ip_char s = true.
Proof.
  unfold net.ParseIP.
  destruct (netip.ParseAddr s) as [a|] eqn:Ha; [|done].
  destruct (String.eqb_spec (netip.Zone a) ""); [|done].
  intros _. by eapply ParseAddr_scan_bytes.
Qed.

Lemma all_bytes_mid P a c b :
  all_bytes P (a +:+ String c b) = true → P c = true.
Proof.
  rewrite all_bytes_app. simpl.
  by intros [_ [? _]%andb_true_iff]%andb_true_iff.
Qed.

(** A dot before any colon or percent sign sends the string to the IPv4
    parser. *)
Lemma ParseAddr_scan_dot a : ∀ s rest,
  is_Some (IndexByteString a ".") →
  IndexByteString a ":" = None → IndexByteString a "%" = None →
  netip.ParseAddr_scan s (a +:+ rest) = netip.parseIPv4 s.
Proof.
  induction a as [|c a IH]; intros s rest Hd Hc Hp.
  - by destruct Hd.
  - rewrite app_String. simpl in *.
    destruct (Ascii.eqb_spec c ".") as [->|Hne].
    + done.
    + destruct (Ascii.eqb_spec c ":") as [|Hne2]; [done|].
      destruct (Ascii.eqb_spec c "%") as [|Hne3]; [done|].
      destruct (Z.eqb_spec (code c) 46) as [E|_].
      { by apply (code_inj c ".") in E. }
      destruct (Z.eqb_spec (code c) 58) as [E|_].
      { by apply (code_inj c ":") in E. }
      destruct (Z.eqb_spec (code c) 37) as [E|_].
      { by apply (code_inj c "%") in E. }
      apply IH.
      * by destruct (IndexByteString a ".").
      * by destruct (IndexByteString a ":").
      * by destruct (IndexByteString a "%").
Qed.

Lemma ParseIP_ipv4_port a b :
  is_Some (IndexByteString a ".") →
  IndexByteString a ":" = None → IndexByteString a "%" = None →
  net.ParseIP (a +:+ String ":" b) = None.
Proof.
  intros Hd Hc Hp. unfold net.ParseIP, netip.ParseAddr.
  rewrite ParseAddr_scan_dot by done.
  unfold netip.parseIPv4.
  destruct (netip.parseIPv4_fields _) as [f|] eqn:Hf; [|done].
  apply parseIPv4_fields_bytes, all_bytes_mid in Hf. done.
Qed.


Lemma Exists_existsb {A} (f : A → bool) (l : list A) :
  existsb f l = true → Exists (λ x, f x = true) l.
Proof.
  induction l as [|x l IH]; simpl; [done|].
  destruct (f x) eqn:Hx; [by left|]. intros H. right. by apply IH.
Qed.

Lemma World_eq (w1 w2 : World) :
  cidrs w1 = cidrs w2 → requests w1 = requests w2 → w1 = w2.
Proof. destruct w1, w2; simpl; by intros -> ->. Qed.

Lemma init_loop_stores blocks : ∀ i w,
  i + length blocks ≤ length (cidrs w) →
  init_loop i blocks w
  = Returns tt
      {| cidrs := take i (cidrs w)
                  ++ ((λ b, (net.ParseCIDR b).1.2) <$> blocks)
                  ++ drop (i + length blocks) (cidrs w);
         requests := requests w |}.
Proof.
  induction blocks as [|b blocks IH]; intros i w Hi; simpl.
  - unfold mret, M_ret. f_equal. apply World_eq; simpl; [|done].
    by rewrite Nat.add_0_r, take_drop.
  - simpl in Hi. destruct (net.ParseCIDR b) as [[a cidr] e] eqn:Hb. simpl.
    unfold mbind, M_bind, store_cidr.
    rewrite (proj2 (Nat.ltb_lt _ _)) by lia.
    rewrite IH by (simpl; rewrite length_insert; lia).
    f_equal. apply World_eq; simpl; [|done].
    assert (is_Some (cidrs w !! i)) as [x Hx] by (apply lookup_lt_is_Some; lia).
    rewrite (take_S_r _ _ cidr) by (apply list_lookup_insert_eq; lia).
    rewrite take_insert_ge by lia.
    rewrite drop_insert_lt by lia.
    rewrite <- app_assoc. simpl. by rewrite Nat.add_succ_r.
Qed.

Lemma init_loop_out_of_range blocks : ∀ i w,
  i ≤ length (cidrs w) → length (cidrs w) < i + length blocks →
  init_loop i blocks w = Panics.
Proof.
  induction blocks as [|b blocks IH]; intros i w Hi Hl; simpl in *; [lia|].
  destruct (net.ParseCIDR b) as [[a cidr] e]. simpl.
  unfold mbind, M_bind, store_cidr.
  destruct (Nat.ltb_spec i (length (cidrs w))); [|done].
  apply IH; simpl; rewrite length_insert; lia.
Qed.

Lemma isPrivateAddress_loop_app (pre : list net.IPNet) rest ip w :
  Forall (λ n, net.Contains n ip = false) pre →
  isPrivateAddress_loop ((Some <$> pre) ++ rest) ip w
  = isPrivateAddress_loop rest ip w.
Proof.
  induction 1 as [|n pre Hn _ IH]; simpl; [done|]. by rewrite Hn.
Qed.

Lemma find_exists {A} (f : A → bool) (l : list A) :
  Exists (λ x, f x = true) l → is_Some (List.find f l).
Proof.
  induction 1 as [x l Hx|x l _ IH]; simpl.
  - rewrite Hx. by eexists.
  - destruct (f x); [by eexists|done].
Qed.

Lemma header_names :
  http.CanonicalHeaderKey xRealIpHeader = "X-Real-Ip"
  ∧ http.CanonicalHeaderKey forwardedHeader = "Forwarded"
  ∧ xRealIpHeader = "X-Real-Ip" ∧ forwardedHeader = "Forwarded"
  ∧ xForwardedForHeader = "X-Forwarded-For".
Proof. repeat split. Qed.

Lemma Get_insert_eq (h : http.MIMEHeader) k v vs :
  http.CanonicalHeaderKey k = k → http.Get (<[k := v :: vs]> h) k = v.
Proof. intros Hk. unfold http.Get. by rewrite Hk, lookup_insert_eq. Qed.

Lemma Get_insert_ne (h : http.MIMEHeader) k k' vs :
  http.CanonicalHeaderKey k' ≠ k → http.Get (<[k := vs]> h) k' = http.Get h k'.
Proof. intros Hk. unfold http.Get. by rewrite lookup_insert_ne. Qed.

Lemma index_insert_ne (h : http.MIMEHeader) k k' vs :
  k' ≠ k → http.index (<[k := vs]> h) k' = http.index h k'.
Proof. intros Hk. unfold http.index. by rewrite lookup_insert_ne. Qed.

Lemma xForwardedFor_inner_returns nets bs w :
  cidrs w = Some <$> nets → ∃ x, xForwardedFor_inner bs w = Returns x w.
Proof.
  intros Hc. induction bs as [|b bs IH]; simpl; [by eexists|].
  unfold mbind, M_bind. rewrite (isPrivateAddress_nets nets) by done.
  destruct (is_global _); [by eexists|done].
Qed.

Lemma xForwardedFor_loop_returns nets xff w :
  cidrs w = Some <$> nets → ∃ x, xForwardedFor_loop xff w = Returns x w.
Proof.
  intros Hc. induction xff as [|a xff IH]; simpl; [by eexists|].
  unfold mbind, M_bind.
  destruct (xForwardedFor_inner_returns nets (strings.Split a ",") w Hc)
    as [[x|] ->]; [by eexists|done].
Qed.

Lemma forwarded_inner_returns nets bs w :
  cidrs w = Some <$> nets → ∃ x, forwarded_inner bs w = Returns x w.
Proof.
  intros Hc. induction bs as [|b bs IH]; simpl; [by eexists|].
  repeat case_match; try done.
  unfold mbind, M_bind. rewrite (isPrivateAddress_nets nets) by done.
  destruct (is_global _); [by eexists|done].
Qed.

Lemma forwarded_loop_returns nets groups w :
  cidrs w = Some <$> nets → ∃ x, forwarded_loop groups w = Returns x w.
Proof.
  intros Hc. induction groups as [|a groups IH]; simpl; [by eexists|].
  unfold mbind, M_bind.
  destruct (forwarded_inner_returns nets (strings.Split a ",") w Hc)
    as [[x|] ->]; [by eexists|done].
Qed.

Lemma Split_nonempty s sep : strings.Split s sep ≠ [].
Proof. destruct s as [|c s]; simpl; [done|]. by repeat case_match. Qed.

Lemma Split_app_sep a b sep :
  strings.Split (a +:+ String sep b) sep
  = strings.Split a sep ++ strings.Split b sep.
Proof.
  induction a as [|c a IH].
  - rewrite app_empty. simpl. by rewrite Ascii.eqb_refl.
  - rewrite app_String. simpl. destruct (Ascii.eqb c sep); rewrite IH; [done|].
    pose proof (Split_nonempty a sep).
    by destruct (strings.Split a sep).
Qed.

Lemma Split_absent s sep :
  IndexByteString s sep = None → strings.Split s sep = [s].
Proof.
  induction s as [|c s IH]; simpl; [done|].
  destruct (Ascii.eqb c sep); [done|].
  destruct (IndexByteString s sep); [done|]. intros _. by rewrite IH.
Qed.

(** The first piece is the start of the string. *)
Lemma Split_head s sep x xs :
  strings.Split s sep = x :: xs → ∃ rest, s = x +:+ rest.
Proof.
  revert x xs. induction s as [|c s IH]; intros x xs; simpl.
  - intros [= <- <-]. by exists "".
  - destruct (Ascii.eqb c sep).
    + intros [= <- <-]. by eexists.
    + destruct (strings.Split s sep) as [|y ys] eqn:Hs.
      * intros [= <- <-]. by exists s.
      * intros [= <- <-]. destruct (IH y ys eq_refl) as [rest ->].
        by exists rest.
Qed.

Lemma prefix_app sub s t :
  String.prefix sub s = true → String.prefix sub (s +:+ t) = true.
Proof.
  revert s. induction sub as [|c sub IH]; intros [|d s]; simpl; try done.
  - by destruct t.
  - destruct (ascii_dec c d); [apply IH|done].
Qed.

Lemma Contains_app_l s t sub :
  strings.Contains s sub = true → strings.Contains (s +:+ t) sub = true.
Proof.
  induction s as [|c s IH]; simpl.
  - rewrite orb_false_r. destruct sub; [|done]. intros _. by destruct t.
  - intros [Hp|Hc]%orb_true_iff.
    + apply (prefix_app _ (String c s) t) in Hp. simpl in Hp. by rewrite Hp.
    + rewrite IH by done. apply orb_true_r.
Qed.

Lemma Contains_cons c s sub :
  strings.Contains s sub = true → strings.Contains (String c s) sub = true.
Proof. intros H. simpl. rewrite H. apply orb_true_r. Qed.

(** A piece that holds [sub] shows that the whole string holds it. *)
Lemma Contains_Split s sep sub : ∀ b,
  b ∈ strings.Split s sep → strings.Contains b sub = true →
  strings.Contains s sub = true.
Proof.
  induction s as [|c s IH]; intros b; simpl.
  - by intros ->%list_elem_of_singleton.
  - destruct (Ascii.eqb c sep).
    + intros [-> | Hb]%elem_of_cons Hc.
      * by destruct sub.
      * apply Contains_cons. by eapply IH.
    + destruct (strings.Split s sep) as [|y ys] eqn:Hs.
      { by destruct (Split_nonempty s sep). }
      intros [-> | Hb]%elem_of_cons Hc.
      * destruct (Split_head s sep y ys Hs) as [rest ->].
        by apply (Contains_app_l (String c y) rest sub).
      * apply Contains_cons. eapply IH; [|done]. by right.
Qed.

Lemma xff_tokens_app l1 l2 : xff_tokens (l1 ++ l2) = xff_tokens l1 ++ xff_tokens l2.
Proof. unfold xff_tokens. apply bind_app. Qed.

Lemma forwarded_pieces_Contains fwd sub b :
  b ∈ forwarded_pieces fwd → strings.Contains b sub = true →
  strings.Contains fwd sub = true.
Proof.
  unfold forwarded_pieces. intros (a & Hb & Ha)%list_elem_of_bind Hc.
  eapply Contains_Split; [exact Ha|]. by eapply Contains_Split.
Qed.

Lemma omap_all_None {A B} (f : A → option B) (l : list A) :
  (∀ x, x ∈ l → f x = None) → omap f l = [].
Proof.
  induction l as [|x l IH]; intros H; simpl; [done|].
  rewrite (H x) by left. apply IH. intros y Hy. apply H. by right.
Qed.

Lemma foldl_Header_Add key vs : ∀ h : http.MIMEHeader,
  foldl (λ h address, Header_Add h key address) h vs
  = match vs with
    | [] => h
    | _ => <[http.CanonicalHeaderKey key :=
               http.index h (http.CanonicalHeaderKey key) ++ vs]> h
    end.
Proof.
  induction vs as [|v vs IH]; intros h; [done|].
  simpl. rewrite IH. unfold Header_Add.
  destruct vs as [|v' vs]; [done|].
  unfold http.index at 1. rewrite lookup_insert_eq. simpl.
  by rewrite insert_insert_eq, <- app_assoc.
Qed.

Lemma is_digit_bounds c : is_digit c = true → (48 ≤ code c ≤ 57)%Z.
Proof. unfold is_digit. intros [?%Z.leb_le ?%Z.leb_le]%andb_true_iff. lia. Qed.

(** One hexadecimal step on a decimal digit. *)
Lemma hex_group_digit c s off acc :
  is_digit c = true → off ≤ 3 → (0 ≤ acc < 4096)%Z →
  netip.hex_group (String c s) off acc
  = netip.hex_group s (S off) (acc * 16 + (code c - 48)).
Proof.
  intros Hd Hoff Hacc. simpl. fold (is_digit c). rewrite Hd.
  apply is_digit_bounds in Hd.
  rewrite Z.shiftl_mul_pow2 by lia. change (2 ^ 4)%Z with 16%Z.
  unfold netip.uint32. rewrite Z.mod_small by lia.
  rewrite (proj2 (Nat.ltb_ge 3 off)) by lia.
  by rewrite (proj2 (Z.ltb_ge _ _)) by lia.
Qed.

Lemma hex_group_dot s off acc :
  netip.hex_group (String "." s) off acc = Some (off, acc).
Proof. reflexivity. Qed.

(** The start of a dotted decimal address: one to three digits, then a dot. *)
Lemma parseIPv4_first_octet s fields :
  netip.parseIPv4_fields s = Some fields →
  ∃ n acc, 1 ≤ n ≤ 3 ∧ netip.hex_group s 0 0 = Some (n, acc)
           ∧ n < String.length s ∧ byte_at s n = 46%Z
           ∧ is_digit (default "000"%char (String.get 0 s)) = true.
Proof.
  unfold netip.parseIPv4_fields.
  destruct s as [|c0 s]; [done|].
  remember (String c0 s) as s0 eqn:Hs0.
  rewrite Hs0 at 2. simpl. fold (is_digit c0).
  destruct (is_digit c0) eqn:H0.
  2:{ destruct (code c0 =? 46)%Z; [|done]. simpl. done. }
  pose proof (is_digit_bounds _ H0) as B0.
  destruct (Z.ltb_spec 255 (0 * 10 + code c0 - 48)) as [|Hv0]; [done|].
  destruct s as [|c1 s]; [by simpl|].
  simpl. fold (is_digit c1).
  destruct (is_digit c1) eqn:H1.
  2:{ destruct (Z.eqb_spec (code c1) 46) as [E|]; [|done].
      apply (code_inj c1 ".") in E as ->. intros _.
      exists 1, (code c0 - 48)%Z. subst s0.
      rewrite hex_group_digit, hex_group_dot by (done || lia).
      repeat split; simpl; try lia. by rewrite H0. }
  pose proof (is_digit_bounds _ H1) as B1.
  destruct (0 * 10 + code c0 - 48 =? 0)%Z eqn:Hz; [by simpl|].
  apply Z.eqb_neq in Hz. simpl.
  destruct (Z.ltb_spec 255 ((0 * 10 + code c0 - 48) * 10 + code c1 - 48))
    as [|Hv1]; [by simpl|].
  destruct s as [|c2 s]; [by simpl|].
  simpl. fold (is_digit c2).
  destruct (is_digit c2) eqn:H2.
  2:{ destruct (Z.eqb_spec (code c2) 46) as [E|]; [|done].
      apply (code_inj c2 ".") in E as ->. intros _.
      exists 2, ((0 * 16 + (code c0 - 48)) * 16 + (code c1 - 48))%Z. subst s0.
      rewrite !hex_group_digit, hex_group_dot by (done || lia).
      repeat split; simpl; try lia. by rewrite H0. }
  pose proof (is_digit_bounds _ H2) as B2.
  destruct (Z.ltb_spec 255 (((0 * 10 + code c0 - 48) * 10 + code c1 - 48) * 10
                            + code c2 - 48)) as [|Hv2]; [by simpl|].
  destruct s as [|c3 s]; [by simpl|].
  simpl. fold (is_digit c3).
  destruct (is_digit c3) eqn:H3.
  { pose proof (is_digit_bounds _ H3) as B3.
    rewrite (proj2 (Z.ltb_lt 255 _)) by lia. by simpl. }
  destruct (Z.eqb_spec (code c3) 46) as [E|]; [|done].
  apply (code_inj c3 ".") in E as ->. intros _.
  exists 3, (((0 * 16 + (code c0 - 48)) * 16 + (code c1 - 48)) * 16
             + (code c2 - 48))%Z. subst s0.
  rewrite !hex_group_digit, hex_group_dot by (done || lia).
  repeat split; simpl; try lia. by rewrite H0.
Qed.

Lemma all_bytes_absent P s c :
  all_bytes P s = true → P c = false → IndexByteString s c = None.
Proof.
  intros Hs Hc. induction s as [|d s IH]; simpl in *; [done|].
  apply andb_true_iff in Hs as [Hd Hs].
  destruct (Ascii.eqb_spec d c) as [->|]; [congruence|].
  by rewrite IH.
Qed.

(** The group [ffff] and its colon. *)
Lemma mapped_group fuel s ip ellipsis :
  is_digit (default "000"%char (String.get 0 s)) = true →
  netip.parseIPv6_loop (S fuel) ("ffff:" +:+ s) ip 0 ellipsis
  = netip.parseIPv6_loop fuel s (<[1:=255%Z]> (<[0:=255%Z]> ip)) 2 ellipsis.
Proof.
  intros Hd. destruct s as [|c s]; [done|]. simpl in Hd.
  apply is_digit_bounds in Hd.
  simpl. change ("" +:+ String c s) with (String c s).
  repeat match goal with
    | |- context [netip.uint8 ?x] =>
        let v := eval vm_compute in (netip.uint8 x) in
        change (netip.uint8 x) with v
    end.
  rewrite byte_at_0_String.
  by rewrite (proj2 (Z.eqb_neq (code c) 58)) by lia.
Qed.

(** The dotted decimal tail after an ellipsis. *)
Lemma mapped_tail fuel s ip i e n acc f0 f1 f2 f3 :
  i + 4 ≤ 16 → 1 ≤ n →
  netip.hex_group s 0 0 = Some (n, acc) →
  n < String.length s → byte_at s n = 46%Z →
  netip.parseIPv4_fields s = Some [f0; f1; f2; f3] →
  netip.parseIPv6_loop (S fuel) s ip i (Some e)
  = netip.parseIPv6_finish ""
      (<[i + 3:=f3]> (<[i + 2:=f2]> (<[i + 1:=f1]> (<[i:=f0]> ip))))
      (i + 4) (Some e).
Proof.
  intros Hi Hn Hh Hl Hb Hf. simpl.
  rewrite (proj2 (Nat.ltb_lt i 16)) by lia. simpl.
  rewrite Hh, (proj2 (Nat.eqb_neq n 0)) by lia.
  rewrite (proj2 (Nat.ltb_lt n _)) by done.
  rewrite Hb. simpl.
  rewrite (proj2 (Nat.ltb_ge 16 (i + 4))) by lia.
  by rewrite Hf.
Qed.

Lemma ParseIP_mapped_literal s fields :
  netip.parseIPv4_fields s = Some fields →
  net.ParseIP ("::ffff:" +:+ s) = Some (netip.v4InV6Prefix ++ fields).
Proof.
  intros Hf.
  destruct (parseIPv4_first_octet s fields Hf) as (n & acc & Hn & Hh & Hl & Hb & Hd).
  pose proof (parseIPv4_fields_bytes s fields Hf) as Hbytes.
  destruct (parseIPv4_fields_wf s fields Hf) as [Hlen _].
  destruct fields as [|f0 [|f1 [|f2 [|f3 [|? ?]]]]]; try done. clear Hlen.
  unfold net.ParseIP, netip.ParseAddr.
  change (netip.ParseAddr_scan ("::ffff:" +:+ s) ("::ffff:" +:+ s))
    with (netip.parseIPv6 ("::ffff:" +:+ s)).
  unfold netip.parseIPv6.
  rewrite (IndexByteString_app "::ffff:" s "%").
  rewrite (all_bytes_absent v4_char s "%") by done.
  cbn [IndexByteString Ascii.eqb Bool.eqb fmap option_fmap option_map].
  change (slice_from 2 ("::ffff:" +:+ s)) with ("ffff:" +:+ s).
  change ((2 <=? String.length ("::ffff:" +:+ s))
          && (byte_at ("::ffff:" +:+ s) 0 =? 58)%Z
          && (byte_at ("::ffff:" +:+ s) 1 =? 58)%Z) with true.
  cbv iota.
  change (String.length ("ffff:" +:+ s) =? 0) with false. cbv iota.
  rewrite (mapped_group 7) by done.
  rewrite (mapped_tail 6 s _ 2 0 n acc f0 f1 f2 f3) by (done || lia).
  reflexivity.
Qed.

Lemma ParseAddr_scan_no_colon rest : ∀ s a,
  IndexByteString rest ":" = None →
  netip.ParseAddr_scan s rest = Some a → netip.parseIPv4 s = Some a.
Proof.
  induction rest as [|c rest IH]; intros s a Hc; simpl in *; [done|].
  destruct (Ascii.eqb_spec c ":") as [|Hne]; [done|].
  destruct (code c =? 46)%Z; [done|].
  destruct (Z.eqb_spec (code c) 58) as [E|_].
  { by apply (code_inj c ":") in E. }
  destruct (code c =? 37)%Z; [done|].
  apply IH. by destruct (IndexByteString rest ":").
Qed.

Lemma ParseIP_no_colon s ip :
  net.ParseIP s = Some ip → IndexByteString s ":" = None →
  ∃ fields, netip.parseIPv4_fields s = Some fields
            ∧ ip = netip.v4InV6Prefix ++ fields.
Proof.
  unfold net.ParseIP, netip.ParseAddr. intros Hp Hc.
  destruct (netip.ParseAddr_scan s s) as [a|] eqn:Ha; [|done].
  apply ParseAddr_scan_no_colon in Ha; [|done].
  unfold netip.parseIPv4 in Ha. apply fmap_Some in Ha as (f & Hf & ->).
  simpl in Hp. injection Hp as <-. by exists f.
Qed.

(** What [SplitHostPort] takes its host from. *)

Lemma IndexByteString_slice s c : ∀ i,
  IndexByteString s c = Some i →
  slice_from i s = String c (slice_from (S i) s).
Proof.
  induction s as [|d s IH]; intros i; simpl; [done|].
  destruct (Ascii.eqb_spec d c) as [->|].
  - by intros [= <-].
  - destruct (IndexByteString s c) as [j|]; [|done].
    intros [= <-]. by apply IH.
Qed.

Lemma LastIndexByteString_slice s c : ∀ i,
  LastIndexByteString s c = Some i →
  slice_from i s = String c (slice_from (S i) s).
Proof.
  induction s as [|d s IH]; intros i; simpl; [done|].
  destruct (LastIndexByteString s c) as [j|].
  - intros [= <-]. by apply IH.
  - destruct (Ascii.eqb_spec d c) as [->|]; [|done]. by intros [= <-].
Qed.

Lemma SplitHostPort_shape hostport host port :
  net.SplitHostPort hostport = (host, port, None) →
  hostport = host +:+ String ":" port
  ∨ hostport = String "[" (host +:+ String "]" (String ":" port)).
Proof.
  unfold net.SplitHostPort. cbv zeta beta.
  destruct (LastIndexByteString hostport ":") as [i|] eqn:Hi; [|done].
  apply LastIndexByteString_slice in Hi.
  destruct (Z.eqb_spec (byte_at hostport 0) 91) as [Hb|_].
  - destruct (IndexByteString hostport "]") as [e|] eqn:He; [|done].
    destruct (e + 1 =? String.length hostport); [done|].
    destruct (Nat.eqb_spec (e + 1) i) as [<-|].
    2:{ destruct (byte_at hostport (e + 1) =? 58)%Z; by simpl. }
    cbv iota beta.
    destruct (bool_decide _); [done|]. destruct (bool_decide _); [done|].
    intros [= <- <-]. right.
    destruct hostport as [|c hp]; [done|].
    rewrite byte_at_0_String in Hb. apply (code_inj c "[") in Hb as ->.
    cbn [IndexByteString] in He. change (Ascii.eqb "[" "]") with false in He.
    cbv iota in He.
    destruct (IndexByteString hp "]") as [e'|] eqn:He'; [|done].
    injection He as <-. apply IndexByteString_slice in He'.
    assert (slice_from (S e') hp = String ":" (slice_from (S (S e')) hp))
      as Hi'.
    { replace (S e' + 1) with (S (S e')) in Hi by lia. exact Hi. }
    f_equal. unfold slice. replace (S e' - 1) with e' by lia.
    change (slice_from 1 (String "[" hp)) with hp.
    replace (S (S e' + 1)) with (S (S (S e'))) by lia.
    change (slice_from (S (S (S e'))) (String "[" hp))
      with (slice_from (S (S e')) hp).
    replace (S e' + 1) with (S (S e')) by lia.
    rewrite <- Hi', <- He'. apply slice_to_from.
  - destruct (bool_decide _); [done|]. cbv iota beta.
    change (slice_from 0 hostport) with hostport.
    destruct (bool_decide _); [done|]. destruct (bool_decide _); [done|].
    intros [= <- <-]. left.
    rewrite (slice_to_from i hostport) at 1. by rewrite Hi.
Qed.

(** ** The properties *)

(** X1: from any state, [init] returns without panic, replaces whatever
    [cidrs] held by the eight networks of the literal list, none of them
    nil, and does not touch the requests; running it again changes
    nothing. *)
Theorem X1_init_any_state (w : World) :
  ∃ w', init w = Returns tt w'
        ∧ cidrs w' = Some <$> reserved_nets
        ∧ requests w' = requests w
        ∧ init w' = Returns tt w'.
Proof.
  eexists. split; [reflexivity|]. split; [apply init_table|].
  split; reflexivity.
Qed.

(** X2: the loop of [init] started at index [i] on a table that has room
    stores the network of each block at the next index and changes no other
    entry; a block that [net.ParseCIDR] refuses leaves nil at its index and
    the loop goes on; a table that is too short makes the loop panic. *)
Theorem X2_init_loop_stores (blocks : list string) (i : nat) (w : World) :
  i ≤ length (cidrs w) →
  (i + length blocks ≤ length (cidrs w) →
   init_loop i blocks w
   = Returns tt
       {| cidrs := take i (cidrs w)
                   ++ ((λ b, (net.ParseCIDR b).1.2) <$> blocks)
                   ++ drop (i + length blocks) (cidrs w);
          requests := requests w |})
  ∧ (length (cidrs w) < i + length blocks → init_loop i blocks w = Panics).
Proof.
  intros Hi. split; [apply init_loop_stores|by apply init_loop_out_of_range].
Qed.

Lemma X2_witness :
  init_loop 1 ["10.0.0.0/8"; "10.0.0.0/33"] world_made
  = Returns tt
      {| cidrs := [None;
                   Some {| net.IPNet_IP := [10; 0; 0; 0]%Z;
                           net.IPNet_Mask := [255; 0; 0; 0]%Z |};
                   None; None];
         requests := ∅ |}.
Proof.
  destruct (X2_init_loop_stores ["10.0.0.0/8"; "10.0.0.0/33"] 1 world_made)
    as [H _].
  - simpl. lia.
  - rewrite H by (simpl; lia). reflexivity.
Defined.

(** X3: [isPrivateAddress] on any table, for an address that parses: when
    the entries before some point are networks that do not contain the
    address, the result is decided by what comes next: the end of the table
    gives [false] without error (so with an empty table nothing is
    private), a network that contains the address gives [true], and a nil
    entry panics. *)
Theorem X3_isPrivateAddress_any_table (w : World) (address : string)
    (ip : net.IP) (pre : list net.IPNet) (rest : list (option net.IPNet)) :
  net.ParseIP address = Some ip →
  cidrs w = (Some <$> pre) ++ rest →
  Forall (λ n, net.Contains n ip = false) pre →
  (rest = [] → isPrivateAddress address w = Returns (false, None) w)
  ∧ (∀ n rest', rest = Some n :: rest' → net.Contains n ip = true →
       isPrivateAddress address w = Returns (true, None) w)
  ∧ (∀ rest', rest = None :: rest' → isPrivateAddress address w = Panics).
Proof.
  intros Hp Hc Hpre. unfold isPrivateAddress. rewrite Hp.
  unfold mbind, M_bind, read_cidrs. rewrite Hc.
  rewrite isPrivateAddress_loop_app by done.
  split; [|split].
  - by intros ->.
  - intros n rest' -> Hn. simpl. by rewrite Hn.
  - by intros rest' ->.
Qed.

Lemma X3_witness : isPrivateAddress "8.8.8.8" world_nil_entry = Panics.
Proof.
  destruct (X3_isPrivateAddress_any_table world_nil_entry "8.8.8.8"
              [0; 0; 0; 0; 0; 0; 0; 0; 0; 0; 255; 255; 8; 8; 8; 8]%Z
              [{| net.IPNet_IP := [10; 0; 0; 0]%Z;
                  net.IPNet_Mask := [255; 0; 0; 0]%Z |}]
              [None]) as (_ & _ & H).
  - reflexivity.
  - reflexivity.
  - repeat constructor.
  - apply (H []). reflexivity.
Defined.



(** X5: once a header is present the remote address is never read: two
    requests with the same values of the three headers, not all absent,
    give the same result whatever their remote addresses are. *)
Theorem X5_remote_address_ignored (w1 w2 : World) (r1 r2 : loc)
    (req1 req2 : http.Request) :
  after_init w1 → after_init w2 →
  requests w1 !! r1 = Some req1 → requests w2 !! r2 = Some req2 →
  xRealIP_of req1 = xRealIP_of req2 →
  xForwardedFor_of req1 = xForwardedFor_of req2 →
  forwarded_of req1 = forwarded_of req2 →
  all_absent req1 = false →
  ∃ s, FromRequest r1 w1 = Returns s w1 ∧ FromRequest r2 w2 = Returns s w2.
Proof.
  intros Hw1 Hw2 Hr1 Hr2 Hx Hf Hfw Ha.
  assert (all_absent req2 = false) as Ha2.
  { unfold all_absent in *. by rewrite <- Hx, <- Hf, <- Hfw. }
  exists (resolve req1). split; [by apply FromRequest_resolve|].
  rewrite (FromRequest_resolve w2 r2 req2) by done.
  unfold resolve. by rewrite Ha, Ha2, Hx, Hf, Hfw.
Qed.

Lemma X5_witness :
  ∃ s, FromRequest 1%positive (world_with req_real_ip)
       = Returns s (world_with req_real_ip)
       ∧ FromRequest 1%positive (world_with req_real_ip_other_remote)
         = Returns s (world_with req_real_ip_other_remote).
Proof.
  apply (X5_remote_address_ignored (world_with req_real_ip)
           (world_with req_real_ip_other_remote) 1%positive 1%positive
           req_real_ip req_real_ip_other_remote); vm_compute; reflexivity.
Defined.

(** X6: when a token of X-Forwarded-For is public, the result is a public
    address that depends on X-Forwarded-For alone: Forwarded, X-Real-IP and
    the remote address play no part. *)
Theorem X6_forwarded_for_wins (w1 w2 : World) (r1 r2 : loc)
    (req1 req2 : http.Request) :
  after_init w1 → after_init w2 →
  requests w1 !! r1 = Some req1 → requests w2 !! r2 = Some req2 →
  xForwardedFor_of req1 = xForwardedFor_of req2 →
  Exists (λ t, public (strings.TrimSpace t) = true)
    (xff_tokens (xForwardedFor_of req1)) →
  ∃ s, FromRequest r1 w1 = Returns s w1 ∧ FromRequest r2 w2 = Returns s w2
       ∧ public s = true.
Proof.
  intros Hw1 Hw2 Hr1 Hr2 Hf Hex.
  assert (xForwardedFor_of req1 ≠ []) as Hne.
  { intros E. rewrite E in Hex. by apply Exists_nil in Hex. }
  rewrite (FromRequest_resolve w1 r1 req1), (FromRequest_resolve w2 r2 req2)
    by done.
  unfold resolve. rewrite !all_absent_xff by congruence. rewrite <- Hf.
  destruct (find_exists public
              (strings.TrimSpace <$> xff_tokens (xForwardedFor_of req1)))
    as [a Ha].
  { by apply Exists_fmap. }
  rewrite Ha. exists a. repeat split. by eapply find_some_true.
Qed.

Lemma X6_witness :
  ∃ s, FromRequest 1%positive (world_with req_xff_chain)
       = Returns s (world_with req_xff_chain)
       ∧ FromRequest 1%positive (world_with req_xff_chain_more)
         = Returns s (world_with req_xff_chain_more)
       ∧ public s = true.
Proof.
  apply (X6_forwarded_for_wins (world_with req_xff_chain)
           (world_with req_xff_chain_more) 1%positive 1%positive
           req_xff_chain req_xff_chain_more).
  - reflexivity.
  - reflexivity.
  - reflexivity.
  - reflexivity.
  - vm_compute. reflexivity.
  - apply Exists_existsb. vm_compute. reflexivity.
Defined.

(** X7: of Forwarded, and of X-Real-IP, only the first occurrence is
    read: two requests whose headers differ in the later occurrences only
    give the same result. *)
Theorem X7_first_occurrence_only (w1 w2 : World) (r1 r2 : loc)
    (req1 req2 : http.Request) (h : http.MIMEHeader) (k v : string)
    (vs1 vs2 : list string) :
  after_init w1 → after_init w2 →
  requests w1 !! r1 = Some req1 → requests w2 !! r2 = Some req2 →
  k = forwardedHeader ∨ k = xRealIpHeader →
  http.Header req1 = <[k := v :: vs1]> h →
  http.Header req2 = <[k := v :: vs2]> h →
  http.RemoteAddr req1 = http.RemoteAddr req2 →
  ∃ s, FromRequest r1 w1 = Returns s w1 ∧ FromRequest r2 w2 = Returns s w2.
Proof.
  intros Hw1 Hw2 Hr1 Hr2 Hk H1 H2 Ha.
  exists (resolve req1). split; [by apply FromRequest_resolve|].
  rewrite (FromRequest_resolve w2 r2 req2) by done.
  assert (xRealIP_of req1 = xRealIP_of req2
          ∧ xForwardedFor_of req1 = xForwardedFor_of req2
          ∧ forwarded_of req1 = forwarded_of req2) as (Hx & Hf & Hfw).
  { unfold xRealIP_of, xForwardedFor_of, forwarded_of. rewrite H1, H2.
    destruct Hk as [-> | ->].
    - rewrite !Get_insert_eq by done.
      rewrite !(Get_insert_ne _ forwardedHeader xRealIpHeader) by done.
      by rewrite !index_insert_ne by done.
    - rewrite !Get_insert_eq by done.
      rewrite !(Get_insert_ne _ xRealIpHeader forwardedHeader) by done.
      by rewrite !index_insert_ne by done. }
  unfold resolve, all_absent. by rewrite Hx, Hf, Hfw, Ha.
Qed.

Lemma X7_witness :
  ∃ s, FromRequest 1%positive (world_with req_forwarded_once)
       = Returns s (world_with req_forwarded_once)
       ∧ FromRequest 1%positive (world_with req_forwarded_twice)
         = Returns s (world_with req_forwarded_twice).
Proof.
  apply (X7_first_occurrence_only (world_with req_forwarded_once)
           (world_with req_forwarded_twice) 1%positive 1%positive
           req_forwarded_once req_forwarded_twice ∅ forwardedHeader
           "for=8.8.8.8" [] ["for=9.9.9.9"]).
  - reflexivity.
  - reflexivity.
  - reflexivity.
  - reflexivity.
  - left. reflexivity.
  - reflexivity.
  - reflexivity.
  - reflexivity.
Defined.

(** X8: two addresses joined by a comma in one X-Forwarded-For value are
    scanned as two occurrences of the header holding one address each. *)
Theorem X8_comma_joined_values (w1 w2 : World) (r1 r2 : loc)
    (req1 req2 : http.Request) (pre post : list string) (a b : string) :
  after_init w1 → after_init w2 →
  requests w1 !! r1 = Some req1 → requests w2 !! r2 = Some req2 →
  xRealIP_of req1 = xRealIP_of req2 →
  forwarded_of req1 = forwarded_of req2 →
  xForwardedFor_of req1 = pre ++ [a +:+ String "," b] ++ post →
  xForwardedFor_of req2 = pre ++ [a; b] ++ post →
  ∃ s, FromRequest r1 w1 = Returns s w1 ∧ FromRequest r2 w2 = Returns s w2.
Proof.
  intros Hw1 Hw2 Hr1 Hr2 Hx Hfw H1 H2.
  rewrite (FromRequest_resolve w1 r1 req1), (FromRequest_resolve w2 r2 req2)
    by done.
  unfold resolve.
  rewrite !all_absent_xff by (rewrite ?H1, ?H2; by destruct pre).
  rewrite H1, H2, Hx, Hfw.
  assert (xff_tokens (pre ++ [a +:+ String "," b] ++ post)
          = xff_tokens (pre ++ [a; b] ++ post)) as ->.
  { rewrite !xff_tokens_app. f_equal. f_equal.
    unfold xff_tokens. simpl. by rewrite Split_app_sep, !app_nil_r. }
  by eexists.
Qed.

Lemma X8_witness :
  ∃ s, FromRequest 1%positive (world_with req_xff_joined)
       = Returns s (world_with req_xff_joined)
       ∧ FromRequest 1%positive (world_with req_xff_separate)
         = Returns s (world_with req_xff_separate).
Proof.
  apply (X8_comma_joined_values (world_with req_xff_joined)
           (world_with req_xff_separate) 1%positive 1%positive
           req_xff_joined req_xff_separate [] [] "10.0.0.1" "8.8.8.8");
    vm_compute; reflexivity.
Defined.

(** X9: a Forwarded value that nowhere holds the lower-case letters [for]
    offers no candidate: when X-Forwarded-For has no public token either,
    the result is the value of X-Real-IP.  The parameter name is matched
    with its case. *)
Theorem X9_forwarded_without_for (w : World) (r : loc) (req : http.Request) :
  after_init w → requests w !! r = Some req →
  all_absent req = false →
  Forall (λ t, public (strings.TrimSpace t) = false)
    (xff_tokens (xForwardedFor_of req)) →
  strings.Contains (forwarded_of req) "for" = false →
  FromRequest r w = Returns (xRealIP_of req) w.
Proof.
  intros Hw Hr Ha Hxff Hfor.
  rewrite (FromRequest_resolve w r req) by done.
  unfold resolve. rewrite Ha.
  rewrite find_none by (by apply Forall_fmap_public).
  unfold forwarded_candidates. rewrite omap_all_None; [done|].
  intros b Hb. unfold piece_candidate.
  destruct (strings.Contains b "for") eqn:Hc; [|done].
  by rewrite (forwarded_pieces_Contains _ _ _ Hb Hc) in Hfor.
Qed.

Lemma X9_witness :
  FromRequest 1%positive (world_with req_forwarded_capital)
  = Returns "198.51.100.4" (world_with req_forwarded_capital).
Proof.
  apply (X9_forwarded_without_for (world_with req_forwarded_capital)
           1%positive req_forwarded_capital).
  - reflexivity.
  - reflexivity.
  - reflexivity.
  - apply Forall_false_forallb. vm_compute. reflexivity.
  - vm_compute. reflexivity.
Defined.

(** X10: the name of a Forwarded parameter is not compared with [for]: a
    single pair [key=value] whose key only contains [for] offers its value
    as a candidate, and the value is returned when it is public and
    X-Forwarded-For has no public token. *)
Theorem X10_forwarded_key_not_checked (w : World) (r : loc) (req : http.Request)
    (key value : string) :
  after_init w → requests w !! r = Some req →
  forwarded_of req = key +:+ String "=" value →
  strings.Contains key "for" = true →
  IndexByteString key ";" = None → IndexByteString key "," = None →
  IndexByteString key "=" = None →
  IndexByteString value ";" = None → IndexByteString value "," = None →
  IndexByteString value "=" = None →
  Forall (λ t, public (strings.TrimSpace t) = false)
    (xff_tokens (xForwardedFor_of req)) →
  public (strip_for_value value) = true →
  FromRequest r w = Returns (strip_for_value value) w.
Proof.
  intros Hw Hr Hf Hfor Hk1 Hk2 Hk3 Hv1 Hv2 Hv3 Hxff Hpub.
  rewrite (FromRequest_resolve w r req) by done.
  unfold resolve. rewrite all_absent_forwarded
    by (rewrite Hf; by destruct key).
  rewrite find_none by (by apply Forall_fmap_public).
  assert (forwarded_candidates (forwarded_of req) = [strip_for_value value])
    as ->; [|simpl; by rewrite Hpub].
  unfold forwarded_candidates, forwarded_pieces. rewrite Hf.
  rewrite (Split_absent _ ";")
    by (rewrite IndexByteString_app, Hk1; simpl; by rewrite Hv1).
  simpl. rewrite app_nil_r.
  rewrite (Split_absent _ ",")
    by (rewrite IndexByteString_app, Hk2; simpl; by rewrite Hv2).
  simpl. unfold piece_candidate.
  rewrite Contains_app_l by done.
  by rewrite Split_app_sep, !Split_absent by done.
Qed.

Lemma X10_witness :
  FromRequest 1%positive (world_with req_forwarded_before)
  = Returns "8.8.8.8" (world_with req_forwarded_before).
Proof.
  apply (X10_forwarded_key_not_checked (world_with req_forwarded_before)
           1%positive req_forwarded_before "before" "8.8.8.8").
  - reflexivity.
  - reflexivity.
  - vm_compute. reflexivity.
  - vm_compute. reflexivity.
  - reflexivity.
  - reflexivity.
  - reflexivity.
  - reflexivity.
  - reflexivity.
  - reflexivity.
  - apply Forall_false_forallb. vm_compute. reflexivity.
  - vm_compute. reflexivity.
Defined.

(** X11: an address followed by a colon and a port never parses when a dot
    comes before any colon, as in [8.8.8.8:80]: on any table
    [isPrivateAddress] returns the error, so such a token of
    X-Forwarded-For or value of Forwarded is never selected. *)
Theorem X11_address_with_port (w : World) (a b : string) :
  IndexByteString a "." ≠ None →
  IndexByteString a ":" = None → IndexByteString a "%" = None →
  isPrivateAddress (a +:+ String ":" b) w
  = Returns (false, Some (errors.New "address is not valid")) w
  ∧ public (a +:+ String ":" b) = false.
Proof.
  intros Hd Hc Hp.
  assert (net.ParseIP (a +:+ String ":" b) = None) as Hn.
  { apply ParseIP_ipv4_port; [|done..].
    by destruct (IndexByteString a "."). }
  unfold isPrivateAddress, public. by rewrite Hn.
Qed.

Lemma X11_witness :
  isPrivateAddress "8.8.8.8:80" (world_with req_real_ip)
  = Returns (false, Some (errors.New "address is not valid"))
      (world_with req_real_ip)
  ∧ public "8.8.8.8:80" = false.
Proof.
  apply (X11_address_with_port (world_with req_real_ip) "8.8.8.8" "80").
  - vm_compute. discriminate.
  - reflexivity.
  - reflexivity.
Defined.

(** X12: [newRequest] of the test file and the reads of [FromRequest]: the
    remote address and X-Real-IP are read back as given (an empty X-Real-IP
    is not set and reads as empty); with [forwarded] false the values are
    read back as the occurrences of X-Forwarded-For, in order, and
    Forwarded is empty; with [forwarded] true X-Forwarded-For has no value
    and only the first of the values is read as Forwarded. *)
Theorem X12_newRequest_round_trip (remoteAddr xRealIP : string)
    (forwarded : bool) (xForwardedFor : list string) :
  http.RemoteAddr (newRequest remoteAddr xRealIP forwarded xForwardedFor)
  = remoteAddr
  ∧ xRealIP_of (newRequest remoteAddr xRealIP forwarded xForwardedFor)
    = xRealIP
  ∧ xForwardedFor_of (newRequest remoteAddr xRealIP forwarded xForwardedFor)
    = (if forwarded then [] else xForwardedFor)
  ∧ forwarded_of (newRequest remoteAddr xRealIP forwarded xForwardedFor)
    = (if forwarded then default "" (head xForwardedFor) else "").
Proof.
  unfold newRequest, xRealIP_of, xForwardedFor_of, forwarded_of.
  cbn [http.RemoteAddr http.Header]. split; [done|].
  set (h0 := if negb (String.eqb xRealIP "") then _ else _).
  assert (http.Get h0 xRealIpHeader = xRealIP
          ∧ h0 !! "X-Forwarded-For" = None ∧ h0 !! "Forwarded" = None)
    as (Hx & Hf & Hfw).
  { subst h0. destruct (String.eqb_spec xRealIP "") as [->|]; simpl; [done|].
    unfold Header_Set. change (http.CanonicalHeaderKey "X-Real-IP")
      with "X-Real-Ip".
    split; [|by rewrite !lookup_insert_ne].
    unfold http.Get. change (http.CanonicalHeaderKey xRealIpHeader)
      with "X-Real-Ip". by rewrite lookup_insert_eq. }
  clearbody h0.
  destruct forwarded; rewrite foldl_Header_Add;
    change (http.CanonicalHeaderKey "Forwarded") with "Forwarded";
    change (http.CanonicalHeaderKey "X-Forwarded-For") with "X-Forwarded-For";
    change xForwardedForHeader with "X-Forwarded-For";
    unfold http.Get in *;
    change (http.CanonicalHeaderKey forwardedHeader) with "Forwarded";
    change (http.CanonicalHeaderKey xRealIpHeader) with "X-Real-Ip" in *;
    unfold http.index; destruct xForwardedFor as [|v vs];
    rewrite ?lookup_insert_eq, ?lookup_insert_ne, ?Hf, ?Hfw by done;
    done.
Qed.

(** X13: on any table without nil entry, initialised or not,
    [FromRequest] returns a string for an allocated request and leaves the
    state as it is; on a request pointer that is nil or not allocated it
    panics. *)
Theorem X13_panics_only_on_nil (w : World) (r : loc) (nets : list net.IPNet) :
  cidrs w = Some <$> nets →
  (∀ req, requests w !! r = Some req → ∃ s, FromRequest r w = Returns s w)
  ∧ (requests w !! r = None → FromRequest r w = Panics).
Proof.
  intros Hc. split.
  - intros req Hr. unfold FromRequest.
    unfold mbind at 1, M_bind at 1, load. rewrite Hr.
    repeat case_match; try by eexists.
    unfold mbind at 1, M_bind at 1.
    destruct (xForwardedFor_loop_returns nets
                (http.index (http.Header req) xForwardedForHeader) w Hc)
      as [[x|] ->]; [by eexists|].
    unfold mbind, M_bind.
    destruct (forwarded_loop_returns nets
                (strings.Split (http.Get (http.Header req) forwardedHeader) ";")
                w Hc) as [[x|] ->]; by eexists.
  - intros Hr. unfold FromRequest, mbind, M_bind, load. by rewrite Hr.
Qed.

Lemma X13_witness :
  (∀ req, requests (world_before_init req_xff_private) !! 2%positive = Some req →
     ∃ s, FromRequest 2%positive (world_before_init req_xff_private)
          = Returns s (world_before_init req_xff_private))
  ∧ (requests (world_before_init req_xff_private) !! 2%positive = None →
     FromRequest 2%positive (world_before_init req_xff_private) = Panics).
Proof.
  apply (X13_panics_only_on_nil (world_before_init req_xff_private) 2%positive []).
  reflexivity.
Defined.

(** X14: a string that holds a byte other than a hexadecimal digit, a dot
    or a colon (a space, a bracket, a quote, a slash, a percent sign, a
    letter beyond [f]) is answered with the error and [false] by
    [isPrivateAddress], on any table and without reading it. *)
Theorem X14_other_bytes_rejected (w : World) (address : string) :
  all_bytes ip_char address = false →
  isPrivateAddress address w
  = Returns (false, Some (errors.New "address is not valid")) w.
Proof.
  intros Hb. unfold isPrivateAddress.
  destruct (net.ParseIP address) as [ip|] eqn:Hp; [|done].
  apply ParseIP_bytes in Hp. congruence.
Qed.

Lemma X14_witness :
  isPrivateAddress "[2001:db8::1]" world_nil_entry
  = Returns (false, Some (errors.New "address is not valid")) world_nil_entry.
Proof.
  apply (X14_other_bytes_rejected world_nil_entry "[2001:db8::1]").
  vm_compute. reflexivity.
Defined.

(** X15: the IPv4-mapped notation does not get around the table: for a
    dotted decimal address [s] that parses, [::ffff:s] parses to the same
    bytes, and [isPrivateAddress] answers the same for both. *)
Theorem X15_mapped_literal (w : World) (s : string) (ip : net.IP) :
  net.ParseIP s = Some ip → IndexByteString s ":" = None →
  net.ParseIP ("::ffff:" +:+ s) = Some ip
  ∧ isPrivateAddress ("::ffff:" +:+ s) w = isPrivateAddress s w.
Proof.
  intros Hp Hc.
  destruct (ParseIP_no_colon s ip Hp Hc) as (fields & Hf & ->).
  pose proof (ParseIP_mapped_literal s fields Hf) as Hm.
  split; [done|]. unfold isPrivateAddress. by rewrite Hm, Hp.
Qed.

Lemma X15_witness :
  net.ParseIP "::ffff:192.168.1.20"
  = Some [0; 0; 0; 0; 0; 0; 0; 0; 0; 0; 255; 255; 192; 168; 1; 20]%Z
  ∧ isPrivateAddress "::ffff:192.168.1.20" (world_with req_real_ip)
    = isPrivateAddress "192.168.1.20" (world_with req_real_ip).
Proof.
  apply (X15_mapped_literal (world_with req_real_ip) "192.168.1.20").
  - reflexivity.
  - reflexivity.
Defined.

(** X16: with the three headers absent the result is taken out of the
    remote address and nothing is put in: it is the remote address itself
    (no colon in it), or the empty string ([SplitHostPort] failed), or the
    remote address is the result followed by a colon and a port, the
    result possibly between square brackets. *)
Theorem X16_remote_address_parts (w : World) (r : loc) (req : http.Request) :
  after_init w → requests w !! r = Some req → all_absent req = true →
  ∃ s, FromRequest r w = Returns s w
       ∧ ((strings.ContainsRune (http.RemoteAddr req) ":" = false
           ∧ s = http.RemoteAddr req)
          ∨ (strings.ContainsRune (http.RemoteAddr req) ":" = true
             ∧ (s = ""
                ∨ ∃ port,
                    http.RemoteAddr req = s +:+ String ":" port
                    ∨ http.RemoteAddr req
                      = String "[" (s +:+ String "]" (String ":" port))))).
Proof.
  intros Hw Hr Ha. exists (resolve req).
  split; [by apply FromRequest_resolve|].
  unfold resolve. rewrite Ha. unfold remote_host.
  destruct (strings.ContainsRune _ _); [right|left; by split].
  split; [done|].
  destruct (net.SplitHostPort (http.RemoteAddr req)) as [[host port] [e|]]
    eqn:Hs; cbn [fst].
  - left. by apply (SplitHostPort_error_host _ _ _ _ Hs).
  - right. exists port. by apply SplitHostPort_shape.
Qed.

Lemma X16_witness :
  ∃ s, FromRequest 1%positive (world_with req_remote_bracketed)
       = Returns s (world_with req_remote_bracketed)
       ∧ ((strings.ContainsRune (http.RemoteAddr req_remote_bracketed) ":"
           = false
           ∧ s = http.RemoteAddr req_remote_bracketed)
          ∨ (strings.ContainsRune (http.RemoteAddr req_remote_bracketed) ":"
             = true
             ∧ (s = ""
                ∨ ∃ port,
                    http.RemoteAddr req_remote_bracketed
                    = s +:+ String ":" port
                    ∨ http.RemoteAddr req_remote_bracketed
                      = String "[" (s +:+ String "]" (String ":" port))))).
Proof.
  apply (X16_remote_address_parts (world_with req_remote_bracketed)
           1%positive req_remote_bracketed); vm_compute; reflexivity.
Defined.
